(** * Library management: a shallow embedding of [library.py]

    The development follows the source file top to bottom: the [BookStatus]
    enumeration, the [Book] record with [to_dict] / [from_dict], the
    [LibraryStorage] gateway ([load_books], [save_books]) and the [Library]
    catalogue ([add_book], [remove_book], [search_books], [display_books],
    [update_status]), then the storage with the encoding of its file and the
    menu loop of [main].  The theorems at the end relate these definitions
    to the properties stated for the catalogue. *)

From Stdlib Require Import ZArith String Ascii DecimalString DecimalPos DecimalZ.
From stdpp Require Import gmap list sorting.

Set Default Proof Using "Type".
Open Scope Z_scope.

(** ** Python values *)

(** A Python [str] is a sequence of Unicode code points. *)
Definition str : Type := list N.

(** ASCII literals of the source, as code points. *)
Definition of_string (s : string) : str :=
  map N_of_ascii (list_ascii_of_string s).

(** [str(n)] for an [int]: decimal digits, a leading minus sign for negative
    numbers, no leading zeros. *)
Definition str_of_int (z : Z) : str :=
  of_string (NilZero.string_of_int (Z.to_int z)).

(** What [json.load] returns: [None], [bool], [int], [float], [str], [list] or
    [dict] with string keys.  No operation of the program inspects a float, so
    it is kept as the lexeme it was read from. *)
#[local] Unset Elimination Schemes.
Inductive json : Type :=
| JNull
| JBool (b : bool)
| JInt (z : Z)
| JFloat (lexeme : str)
| JStr (s : str)
| JList (l : list json)
| JObject (d : gmap str json).
#[local] Set Elimination Schemes.

(** The exception classes the program can meet.  [OSError] stands for the
    subclasses of [OSError] other than [FileNotFoundError] that [open] raises
    (a file that may not be read or written, a directory in its place). *)
Inductive exn : Type :=
| FileNotFoundError
| JSONDecodeError
| KeyError (key : str)
| ValueError
| TypeError
| UnicodeDecodeError
| UnicodeEncodeError
| OSError.

(** [isinstance(e, ValueError)]: [json.JSONDecodeError] derives from
    [ValueError], and so do [UnicodeDecodeError] and [UnicodeEncodeError],
    through [UnicodeError]; [KeyError] derives from [LookupError], [TypeError]
    directly from [Exception] and [FileNotFoundError] from [OSError]. *)
Definition isinstance_ValueError (e : exn) : bool :=
  match e with
  | ValueError | JSONDecodeError | UnicodeDecodeError | UnicodeEncodeError => true
  | FileNotFoundError | KeyError _ | TypeError | OSError => false
  end.

(** Outcome of a call.  [Untyped] is not an exception: it marks a call that
    returns normally in Python but whose value violates the annotations of the
    source (a [Book] whose [id] is a string, say) and so has no counterpart in
    the typed records below. *)
Inductive result (A : Type) : Type :=
| Ok (a : A)
| Raise (e : exn)
| Untyped.
Arguments Ok {A} a.
Arguments Raise {A} e.
Arguments Untyped {A}.

Definition bind {A B} (r : result A) (f : A -> result B) : result B :=
  match r with
  | Ok a => f a
  | Raise e => Raise e
  | Untyped => Untyped
  end.

(** [try: r except (classes): handler] *)
Definition try_except {A} (r : result A) (caught : exn -> bool)
    (handler : result A) : result A :=
  match r with
  | Raise e => if caught e then handler else Raise e
  | _ => r
  end.

Declare Scope py_scope.
Delimit Scope py_scope with py.
Notation "x <- c ;; k" := (bind c (fun x => k))
  (at level 100, c at next level, right associativity) : py_scope.

(** [d[key]] on a dict. *)
Definition getitem (d : gmap str json) (key : str) : result json :=
  match d !! key with
  | Some v => Ok v
  | None => Raise (KeyError key)
  end.

(** [data[key]] with a string key on an arbitrary value: only a dict can be
    indexed by a string; lists and strings want integer indices and the other
    values are not subscriptable. *)
Definition subscript (data : json) (key : str) : result json :=
  match data with
  | JObject d => getitem d key
  | _ => Raise TypeError
  end.

(** [for x in data]: a list yields its items, a dict its keys, a string its
    characters; the remaining values are not iterable. *)
Definition iter (data : json) : result (list json) :=
  match data with
  | JList l => Ok l
  | JObject d => Ok (map (fun kv => JStr kv.1) (map_to_list d))
  | JStr s => Ok (map (fun c => JStr [c]) s)
  | _ => Raise TypeError
  end.

(** [[f(x) for x in l]]: items are evaluated in order and the first exception
    ends the comprehension.  An item outside the typed model does not stop
    Python, so a later exception still wins over it. *)
Fixpoint comprehension {A B} (f : A -> result B) (l : list A) : result (list B) :=
  match l with
  | [] => Ok []
  | x :: l' =>
      match f x, comprehension f l' with
      | Raise e, _ => Raise e
      | _, Raise e => Raise e
      | Ok b, Ok bs => Ok (b :: bs)
      | _, _ => Untyped
      end
  end.

(** ** BookStatus *)

Inductive BookStatus : Type := AVAILABLE | ISSUED.

#[global] Instance BookStatus_eq_dec : EqDecision BookStatus.
Proof. solve_decision. Defined.

(** The values of the members: "в наличии" and "выдана". *)
Definition value (s : BookStatus) : str :=
  match s with
  | AVAILABLE => [1074; 32; 1085; 1072; 1083; 1080; 1095; 1080; 1080]%N
  | ISSUED => [1074; 1099; 1076; 1072; 1085; 1072]%N
  end.

Definition _value2member_map_ : gmap str BookStatus :=
  <[value AVAILABLE := AVAILABLE]> (<[value ISSUED := ISSUED]> ∅).

(** [BookStatus.has_value(value)] *)
Definition has_value (v : str) : bool :=
  bool_decide (is_Some (_value2member_map_ !! v)).

(** [BookStatus(v)]: the member whose value is [v], [ValueError] when there
    is none.  Only a string can equal a member's value. *)
Definition BookStatus_call (v : json) : result BookStatus :=
  match v with
  | JStr s =>
      match _value2member_map_ !! s with
      | Some m => Ok m
      | None => Raise ValueError
      end
  | _ => Raise ValueError
  end.

(** ** Book *)

Record Book : Type := mkBook {
  id : Z;
  title : str;
  author : str;
  year : Z;
  status : BookStatus;
}.

#[global] Instance Book_eq_dec : EqDecision Book.
Proof. solve_decision. Defined.

Definition key_id : str := of_string "id".
Definition key_title : str := of_string "title".
Definition key_author : str := of_string "author".
Definition key_year : str := of_string "year".
Definition key_status : str := of_string "status".

Definition to_dict (self : Book) : gmap str json :=
  <[key_id := JInt (id self)]>
    (<[key_title := JStr (title self)]>
      (<[key_author := JStr (author self)]>
        (<[key_year := JInt (year self)]>
          (<[key_status := JStr (value (status self))]> ∅)))).

(** The annotated types of the constructor's arguments. *)
Definition as_int (v : json) : result Z :=
  match v with JInt z => Ok z | _ => Untyped end.
Definition as_str (v : json) : result str :=
  match v with JStr s => Ok s | _ => Untyped end.

(** [Book.from_dict(data)].  The five arguments are evaluated left to right,
    so the lookups come first, in the order of the source, and
    [BookStatus(...)] after them; the constructor itself stores whatever it is
    given. *)
Definition from_dict (data : json) : result Book :=
  (v_id <- subscript data key_id;;
   v_title <- subscript data key_title;;
   v_author <- subscript data key_author;;
   v_year <- subscript data key_year;;
   v_status <- subscript data key_status;;
   st <- BookStatus_call v_status;;
   book_id <- as_int v_id;;
   title <- as_str v_title;;
   author <- as_str v_author;;
   year <- as_int v_year;;
   Ok (mkBook book_id title author year st))%py.

(** [[book.to_dict() for book in books]], the document [save_books] hands to
    [json.dump]. *)
Definition document (books : list Book) : json :=
  JList (map (fun book => JObject (to_dict book)) books).

(** ** Console output *)

(** The lines the program prints, one constructor per [print] call of the
    source; the arguments are the values interpolated into the line. *)
Inductive message : Type :=
| MsgAdded (title : str) (new_id : Z)
| MsgRemoved (book_id : Z)
| MsgNotFound (book_id : Z)
| MsgStatusUpdated (book_id : Z) (new_status : str)
| MsgInvalidStatus
| MsgEmpty
| MsgHeader
| MsgRule
| MsgRow (book : Book).

(** [max(iterable, default=d)] on integers. *)
Definition max_default (l : list Z) (d : Z) : Z :=
  match l with
  | [] => d
  | x :: l' => foldl Z.max x l'
  end.

(** [sub in s] on strings. *)
Fixpoint startswith (s prefix : str) {struct prefix} : bool :=
  match prefix, s with
  | [], _ => true
  | _ :: _, [] => false
  | a :: prefix', b :: s' => bool_decide (a = b) && startswith s' prefix'
  end.

Fixpoint contains (s sub : str) : bool :=
  startswith s sub ||
  match s with
  | [] => false
  | _ :: s' => contains s' sub
  end.

Section Program.

(** The parts of the Python runtime the program calls and this file does
    not define: the text of a file, [json.load] ([None] stands for
    [json.JSONDecodeError]), [json.dump] and [str.lower]. *)
Variable text : Type.
Variable json_loads : text -> option json.
Variable json_dumps : json -> text.
Variable lower : str -> str.

(** The world outside the objects: the files by path, and the console.  A
    path is the string handed to [open], and two spellings of one path are
    two keys.  In this section a file is the text it decodes to and writing
    succeeds; the module [Disk] below keeps the decoding, the encoding and
    the refusals of [open], and agrees with this section where none of them
    comes into play. *)
Record world : Type := mkWorld {
  files : gmap str text;
  stdout : list message;
}.

Definition print (m : message) (w : world) : world :=
  mkWorld (files w) (stdout w ++ [m]).

(** [open(path, 'r')] followed by reading the whole file. *)
Definition open_read (path : str) (w : world) : result text :=
  match files w !! path with
  | Some t => Ok t
  | None => Raise FileNotFoundError
  end.

(** [open(path, 'w')] followed by writing [t]: the file is created or
    truncated.  Writing is taken to succeed. *)
Definition open_write (path : str) (t : text) (w : world) : world :=
  mkWorld (<[path := t]> (files w)) (stdout w).

Definition json_load (t : text) : result json :=
  match json_loads t with
  | Some v => Ok v
  | None => Raise JSONDecodeError
  end.

(** *** LibraryStorage *)

Record LibraryStorage : Type := mkLibraryStorage { data_file : str }.

Definition load_books (self : LibraryStorage) (w : world) : result (list Book) :=
  try_except
    (file <- open_read (data_file self) w;;
     data <- json_load file;;
     items <- iter data;;
     comprehension from_dict items)%py
    (fun e => match e with
              | FileNotFoundError | JSONDecodeError => true
              | _ => false
              end)
    (Ok []).

Definition save_books (self : LibraryStorage) (books : list Book) (w : world) : world :=
  open_write (data_file self) (json_dumps (document books)) w.

(** *** Library *)

Record Library : Type := mkLibrary {
  storage : LibraryStorage;
  books : list Book;
}.

(** [Library(storage)] *)
Definition Library_init (storage : LibraryStorage) (w : world) : result Library :=
  (books <- load_books storage w;;
   Ok (mkLibrary storage books))%py.

Definition add_book (self : Library) (title author : str) (year : Z) (w : world)
    : result (Library * world) :=
  let new_id := max_default (map id (books self)) 0 + 1 in
  let new_book := mkBook new_id title author year AVAILABLE in
  let self := mkLibrary (storage self) (books self ++ [new_book]) in
  let w := save_books (storage self) (books self) w in
  let w := print (MsgAdded title new_id) w in
  Ok (self, w).

(** [next((book for book in self.books if book.id == book_id), None)].  The
    object found is named by its position in the list together with its
    current fields. *)
Definition next_with_id (books : list Book) (book_id : Z) : option (nat * Book) :=
  list_find (fun book => id book = book_id) books.

(** A [Book] has neither [__bool__] nor [__len__], so [if book_to_remove:]
    only asks whether the search found an object; and it has no [__eq__], so
    [self.books.remove(book_to_remove)] deletes the position that holds the
    object found, which is in the list. *)
Definition remove_book (self : Library) (book_id : Z) (w : world)
    : result (Library * world) :=
  match next_with_id (books self) book_id with
  | Some (i, book_to_remove) =>
      let self := mkLibrary (storage self) (delete i (books self)) in
      let w := save_books (storage self) (books self) w in
      let w := print (MsgRemoved book_id) w in
      Ok (self, w)
  | None => Ok (self, print (MsgNotFound book_id) w)
  end.

Definition search_books (self : Library) (keyword : str) : list Book :=
  List.filter
    (fun book =>
       contains (lower (title book)) (lower keyword)
       || contains (lower (author book)) (lower keyword)
       || bool_decide (keyword = str_of_int (year book)))
    (books self).

Definition display_books (self : Library) (w : world) : world :=
  match books self with
  | [] => print MsgEmpty w
  | _ =>
      foldl (fun w book => print (MsgRow book) w)
        (print MsgRule (print MsgHeader w)) (books self)
  end.

(** [book.status = st] *)
Definition set_status (st : BookStatus) (book : Book) : Book :=
  mkBook (id book) (title book) (author book) (year book) st.

Definition update_status (self : Library) (book_id : Z) (new_status : str) (w : world)
    : result (Library * world) :=
  match next_with_id (books self) book_id with
  | Some (i, book) =>
      if has_value new_status then
        (st <- BookStatus_call (JStr new_status);;
         let self := mkLibrary (storage self) (alter (set_status st) i (books self)) in
         let w := save_books (storage self) (books self) w in
         let w := print (MsgStatusUpdated book_id new_status) w in
         Ok (self, w))%py
      else Ok (self, print MsgInvalidStatus w)
  | None => Ok (self, print (MsgNotFound book_id) w)
  end.

(** *** Sequences of catalogue operations *)

(** One call of a public method of [Library], as the menu loop of [main]
    issues them. *)
Inductive command : Type :=
| CmdAdd (title author : str) (year : Z)
| CmdRemove (book_id : Z)
| CmdSearch (keyword : str)
| CmdDisplay
| CmdUpdateStatus (book_id : Z) (new_status : str).

Definition call (c : command) (self : Library) (w : world) : result (Library * world) :=
  match c with
  | CmdAdd title author year => add_book self title author year w
  | CmdRemove book_id => remove_book self book_id w
  | CmdSearch keyword => let _ := search_books self keyword in Ok (self, w)
  | CmdDisplay => Ok (self, display_books self w)
  | CmdUpdateStatus book_id new_status => update_status self book_id new_status w
  end.

Fixpoint run (cs : list command) (self : Library) (w : world) : result (Library * world) :=
  match cs with
  | [] => Ok (self, w)
  | c :: cs' =>
      (r <- call c self w;;
       run cs' r.1 r.2)%py
  end.

End Program.

Arguments mkWorld {text} files stdout.
Arguments files {text} w.
Arguments stdout {text} w.
Arguments print {text} m w.
Arguments open_read {text} path w.
Arguments open_write {text} path t w.
Arguments json_load {text} json_loads t.
Arguments load_books {text} json_loads self w.
Arguments save_books {text} json_dumps self books w.
Arguments Library_init {text} json_loads storage w.
Arguments add_book {text} json_dumps self title author year w.
Arguments remove_book {text} json_dumps self book_id w.
Arguments display_books {text} self w.
Arguments update_status {text} json_dumps self book_id new_status w.
Arguments call {text} json_dumps lower c self w.
Arguments run {text} json_dumps lower cs self w.

(** ** The storage on disk

    The section above takes a file for the text it decodes to and a write
    for done.  This module keeps the two steps it leaves out: with
    [encoding='utf-8'] the file is decoded when it is read and encoded when
    it is written, and [open] may refuse. *)

Module Disk.

(** What a file holds: the UTF-8 encoding of a text, or bytes that are the
    encoding of none. *)
Inductive content (text : Type) : Type :=
| UTF8 (t : text)
| NotUTF8 (raw : list N).
Arguments UTF8 {text} t.
Arguments NotUTF8 {text} raw.

(** A surrogate, U+D800 to U+DFFF.  A [str] may hold one on its own; UTF-8
    encodes none. *)
Definition surrogate (c : N) : bool := ((55296 <=? c) && (c <=? 57343))%N.

Definition encodable (s : str) : bool :=
  forallb (fun c => negb (surrogate c)) s.

(** Of the strings [json.dump] writes for a book, the keys and the values of
    the status are literals that encode; the title and the author are the
    user's. *)
Definition writable (book : Book) : bool :=
  encodable (title book) && encodable (author book).

Section Storage.

Variable text : Type.
Variable json_loads : text -> option json.
Variable json_dumps : json -> text.

(** What [json.dump] has written of a document when one of its strings does
    not encode: [json.dump] hands the text to the file piece by piece, and
    the pieces before that string are in the file. *)
Variable json_dump_cut : json -> text.

(** The files by path, and the paths that [open] refuses to read or to
    write with an [OSError]. *)
Record world : Type := mkWorld {
  files : gmap str (content text);
  read_denied : gset str;
  write_denied : gset str;
}.

(** [open(path, 'r', encoding='utf-8')] *)
Definition open_read (path : str) (w : world) : result (content text) :=
  match files w !! path with
  | None => Raise FileNotFoundError
  | Some c => if decide (path ∈ read_denied w) then Raise OSError else Ok c
  end.

(** Reading the whole file decodes it. *)
Definition read (c : content text) : result text :=
  match c with
  | UTF8 t => Ok t
  | NotUTF8 _ => Raise UnicodeDecodeError
  end.

Definition load_books (self : LibraryStorage) (w : world) : result (list Book) :=
  try_except
    (c <- open_read (data_file self) w;;
     file <- read c;;
     data <- json_load json_loads file;;
     items <- iter data;;
     comprehension from_dict items)%py
    (fun e => match e with
              | FileNotFoundError | JSONDecodeError => true
              | _ => false
              end)
    (Ok []).

(** [open(path, 'w', encoding='utf-8')] empties or creates the file, then
    [json.dump] writes; when a string does not encode the exception leaves
    [save_books] and the file keeps what was written before it. *)
Definition save_books (self : LibraryStorage) (books : list Book) (w : world)
    : result unit * world :=
  if decide (data_file self ∈ write_denied w) then (Raise OSError, w)
  else if forallb writable books then
    (Ok tt,
     mkWorld (<[data_file self := UTF8 (json_dumps (document books))]> (files w))
       (read_denied w) (write_denied w))
  else
    (Raise UnicodeEncodeError,
     mkWorld (<[data_file self := UTF8 (json_dump_cut (document books))]> (files w))
       (read_denied w) (write_denied w)).

(** The files that decode, as the texts they decode to: the files of the
    section above. *)
Definition texts (w : world) : gmap str text :=
  omap (fun c => match c with UTF8 t => Some t | NotUTF8 _ => None end) (files w).

End Storage.

Arguments mkWorld {text} files read_denied write_denied.
Arguments files {text} w.
Arguments read_denied {text} w.
Arguments write_denied {text} w.
Arguments open_read {text} path w.
Arguments read {text} c.
Arguments load_books {text} json_loads self w.
Arguments save_books {text} json_dumps json_dump_cut self books w.
Arguments texts {text} w.

End Disk.

(** ** The menu loop *)

(** The prompts of the [input] calls of [main], in the order of the source. *)
Inductive prompt : Type :=
| AskChoice
| AskTitle
| AskAuthor
| AskYear
| AskRemoveId
| AskKeyword
| AskUpdateId
| AskNewStatus.

(** What reaches the screen while [main] runs: the lines the methods of
    [Library] print, the lines [main] prints itself, one constructor per
    [print] call (the two "ID must be a number" calls print the same line),
    and the prompts that [input] writes. *)
Inductive line : Type :=
| Printed (m : message)
| Welcome
| MenuTitle
| MenuAdd
| MenuRemove
| MenuSearch
| MenuDisplay
| MenuUpdate
| MenuQuit
| Asked (p : prompt)
| FoundRow (book : Book)
| NothingFound
| YearNotNumber
| IdNotNumber
| Goodbye
| UnknownCommand.

(** How a run of [main] ends: it returns after [break], [input] raises
    [EOFError] at the end of the input, another exception leaves [main], or a
    value outside the typed model was loaded.  [OutOfFuel] belongs to the
    model of the loop only and is shown never to occur. *)
Inductive ending : Type :=
| Quit (library : Library)
| EndOfInput
| Crash (e : exn)
| OffModel
| OutOfFuel.

Section Menu.

Variable text : Type.
Variable json_loads : text -> option json.
Variable json_dumps : json -> text.
Variable lower : str -> str.

(** Three more builtins: [str.strip], [str.isdigit] and [int] on a string
    ([None] stands for [ValueError]). *)
Variable strip : str -> str.
Variable isdigit : str -> bool.
Variable int_of_str : str -> option Z.

(** The files, the screen and the lines still to be typed. *)
Record terminal : Type := mkTerminal {
  disk : gmap str text;
  screen : list line;
  keyboard : list str;
}.

(** A piece of [main]: it either ends the program or goes on with a value. *)
Definition proc (A : Type) : Type := terminal -> (ending + A) * terminal.

Definition ret {A} (a : A) : proc A := fun t => (inr a, t).

Definition then_ {A B} (p : proc A) (k : A -> proc B) : proc B :=
  fun t =>
    match p t with
    | (inl e, t') => (inl e, t')
    | (inr a, t') => k a t'
    end.

Definition show (l : line) : proc unit :=
  fun t => (inr tt, mkTerminal (disk t) (screen t ++ [l]) (keyboard t)).

Definition show_all (ls : list line) : proc unit :=
  fun t => (inr tt, mkTerminal (disk t) (screen t ++ ls) (keyboard t)).

(** [input(prompt)]: the prompt is written, then a line is read; at the end
    of the input [EOFError] is raised, which nothing in [main] catches. *)
Definition input (p : prompt) : proc str :=
  fun t =>
    match keyboard t with
    | [] => (inl EndOfInput, mkTerminal (disk t) (screen t ++ [Asked p]) [])
    | typed :: rest => (inr typed, mkTerminal (disk t) (screen t ++ [Asked p]) rest)
    end.

(** [int(s)] *)
Definition int (s : str) : proc Z :=
  fun t =>
    match int_of_str s with
    | Some z => (inr z, t)
    | None => (inl (Crash ValueError), t)
    end.

(** A method of [Library] called from [main]: it works on the files and what
    it prints goes to the screen, after what is there. *)
Definition method (m : world text -> result (Library * world text)) : proc Library :=
  fun t =>
    match m (mkWorld (disk t) []) with
    | Ok (library, w) =>
        (inr library,
         mkTerminal (files w) (screen t ++ map Printed (stdout w)) (keyboard t))
    | Raise e => (inl (Crash e), t)
    | Untyped => (inl OffModel, t)
    end.

Declare Scope menu_scope.
Delimit Scope menu_scope with menu.
Notation "x <- c ;; k" := (then_ c (fun x => k))
  (at level 100, c at next level, right associativity) : menu_scope.

(** One turn of the [while True] loop: [None] is [break], [Some library] goes
    round again. *)
Definition body (library : Library) : proc (option Library) :=
  (_ <- show MenuTitle;;
   _ <- show MenuAdd;;
   _ <- show MenuRemove;;
   _ <- show MenuSearch;;
   _ <- show MenuDisplay;;
   _ <- show MenuUpdate;;
   _ <- show MenuQuit;;
   typed <- input AskChoice;;
   let choice := strip typed in
   if decide (choice = of_string "1") then
     title <- input AskTitle;;
     author <- input AskAuthor;;
     year <- input AskYear;;
     if isdigit year then
       y <- int year;;
       library <- method (add_book json_dumps library title author y);;
       ret (Some library)
     else
       _ <- show YearNotNumber;;
       ret (Some library)
   else if decide (choice = of_string "2") then
     book_id <- input AskRemoveId;;
     if isdigit book_id then
       k <- int book_id;;
       library <- method (remove_book json_dumps library k);;
       ret (Some library)
     else
       _ <- show IdNotNumber;;
       ret (Some library)
   else if decide (choice = of_string "3") then
     keyword <- input AskKeyword;;
     _ <- match search_books lower library keyword with
          | [] => show NothingFound
          | results => show_all (map FoundRow results)
          end;;
     ret (Some library)
   else if decide (choice = of_string "4") then
     library <- method (fun w => Ok (library, display_books library w));;
     ret (Some library)
   else if decide (choice = of_string "5") then
     book_id <- input AskUpdateId;;
     new_status <- input AskNewStatus;;
     if isdigit book_id then
       k <- int book_id;;
       library <- method (update_status json_dumps library k new_status);;
       ret (Some library)
     else
       _ <- show IdNotNumber;;
       ret (Some library)
   else if decide (choice = of_string "6") then
     _ <- show Goodbye;;
     ret None
   else
     _ <- show UnknownCommand;;
     ret (Some library))%menu.

(** The loop.  Every turn reads at least one line, so a number of turns
    above the number of lines typed is never used up. *)
Fixpoint main_loop (fuel : nat) (library : Library) (t : terminal) : ending * terminal :=
  match fuel with
  | O => (OutOfFuel, t)
  | S fuel' =>
      match body library t with
      | (inl e, t') => (e, t')
      | (inr None, t') => (Quit library, t')
      | (inr (Some library'), t') => main_loop fuel' library' t'
      end
  end.

(** [main()] *)
Definition main (t : terminal) : ending * terminal :=
  match Library_init json_loads (mkLibraryStorage (of_string "library_data.json"))
          (mkWorld (disk t) []) with
  | Ok library =>
      main_loop (S (length (keyboard t))) library
        (mkTerminal (disk t) (screen t ++ [Welcome]) (keyboard t))
  | Raise e => (Crash e, t)
  | Untyped => (OffModel, t)
  end.

End Menu.

Arguments mkTerminal {text} disk screen keyboard.
Arguments disk {text} t.
Arguments screen {text} t.
Arguments keyboard {text} t.
Arguments ret {text A} a t.
Arguments then_ {text A B} p k t.
Arguments show {text} l t.
Arguments show_all {text} ls t.
Arguments input {text} p t.
Arguments int {text} int_of_str s t.
Arguments method {text} m t.
Arguments body {text} json_dumps lower strip isdigit int_of_str library t.
Arguments main_loop {text} json_dumps lower strip isdigit int_of_str fuel library t.
Arguments main {text} json_loads json_dumps lower strip isdigit int_of_str t.

(** ** Vocabulary of the properties *)

(** [sub] occurs in [s] as a contiguous run of characters. *)
Definition substring (sub s : str) : Prop :=
  ∃ pre post, s = pre ++ sub ++ post.

(** [keyword.lower() in s.lower()]: the lowered keyword occurs in the
    lowered string. *)
Definition lowered_occurs (lower : str -> str) (keyword s : str) : Prop :=
  substring (lower keyword) (lower s).

(** The test of [search_books] on one book. *)
Definition matches (lower : str -> str) (keyword : str) (book : Book) : Prop :=
  lowered_occurs lower keyword (title book)
  ∨ lowered_occurs lower keyword (author book)
  ∨ str_of_int (year book) = keyword.

(** Two strings are equal up to case when they lower to the same string. *)
Definition equal_up_to_case (lower : str -> str) (s1 s2 : str) : Prop :=
  lower s1 = lower s2.

(** [s] contains [keyword] up to case: some run of characters of [s] is equal
    to [keyword] up to case.  Nothing here lowers [s] as a whole. *)
Definition contains_up_to_case (lower : str -> str) (keyword s : str) : Prop :=
  ∃ pre mid post, s = pre ++ mid ++ post ∧ equal_up_to_case lower mid keyword.

(** The books a case-insensitive search for [keyword] is to return. *)
Definition matches_up_to_case (lower : str -> str) (keyword : str) (book : Book) : Prop :=
  contains_up_to_case lower keyword (title book)
  ∨ contains_up_to_case lower keyword (author book)
  ∨ str_of_int (year book) = keyword.

(** [selects P l r]: [r] lists exactly the items of [l] that satisfy [P], each
    as often as in [l] and in the order of [l]. *)
Inductive selects {A} (P : A -> Prop) : list A -> list A -> Prop :=
| selects_nil : selects P [] []
| selects_keep x l r : P x -> selects P l r -> selects P (x :: l) (x :: r)
| selects_skip x l r : ¬ P x -> selects P l r -> selects P (x :: l) r.

(** [m] is the greatest element of [l]. *)
Definition is_max (m : Z) (l : list Z) : Prop :=
  m ∈ l ∧ ∀ i, i ∈ l -> i <= m.

(** A status literal is recognized when it is the value of a member. *)
Definition recognized (literal : str) : Prop :=
  ∃ st, literal = value st.

(** The keys a record must have. *)
Definition required_keys : list str :=
  [key_id; key_title; key_author; key_year; key_status].

(** The arguments of one [add_book] call. *)
Definition add_args : Type := str * str * Z.

Definition adds (args : list add_args) : list command :=
  map (fun '(title, author, year) => CmdAdd title author year) args.

(** The books that [args] describe, numbered upwards from [n], all
    available. *)
Fixpoint numbered (n : Z) (args : list add_args) : list Book :=
  match args with
  | [] => []
  | (title, author, year) :: args' =>
      mkBook n title author year AVAILABLE :: numbered (n + 1) args'
  end.

(** The ids announced by the "added" lines of the console, in order. *)
Definition assigned_ids (out : list message) : list Z :=
  omap (fun m => match m with MsgAdded _ new_id => Some new_id | _ => None end) out.

(** The ids of a collection, in order. *)
Definition ids (books : list Book) : list Z := map id books.

(** The id [add_book] computes for a new book. *)
Definition next_id (books : list Book) : Z := max_default (ids books) 0 + 1.

(** ** A runtime to run the definitions on

    A file holds either a JSON document or text that is not JSON, and [lower]
    maps the letters A to Z to a to z. *)

Inductive plain_text : Type :=
| NotJSON (raw : str)
| Document (v : json).

Definition plain_loads (t : plain_text) : option json :=
  match t with
  | Document v => Some v
  | NotJSON _ => None
  end.

Definition plain_dumps (v : json) : plain_text := Document v.

Definition ascii_lower (s : str) : str :=
  map (fun c => if bool_decide (65 <= c <= 90)%N then (c + 32)%N else c) s.

Definition no_files : world plain_text := mkWorld ∅ [].

Definition test_storage : LibraryStorage :=
  mkLibraryStorage (of_string "test_library.json").

(** The scenario of the tests: an empty catalogue, then one book. *)
Definition dune : add_args :=
  (of_string "Dune", of_string "Herbert", 1965).
Definition emma : add_args :=
  (of_string "Emma", of_string "Austen", 1815).

Definition dune_book (st : BookStatus) : Book :=
  mkBook 1 (of_string "Dune") (of_string "Herbert") 1965 st.

Definition emma_book (n : Z) : Book :=
  mkBook n (of_string "Emma") (of_string "Austen") 1815 AVAILABLE.

Definition two_books : Library :=
  mkLibrary test_storage [dune_book AVAILABLE; emma_book 2].

(** The world in which the file of [test_storage] holds [books] and the
    console shows [out]. *)
Definition world_holding (books : list Book) (out : list message) : world plain_text :=
  mkWorld (<[data_file test_storage := plain_dumps (document books)]> ∅) out.

(** The storage that [main] opens. *)
Definition main_storage : LibraryStorage :=
  mkLibraryStorage (of_string "library_data.json").

(** The record of Dune without its "year" key, and with a status that no
    member has. *)
Definition record_without_year : json :=
  JObject (delete key_year (to_dict (dune_book AVAILABLE))).

Definition record_with_bad_status : json :=
  JObject (<[key_status := JStr (of_string "lost")]> (to_dict (dune_book AVAILABLE))).

(** A world whose file is a JSON array holding a good record and then the
    record without its year. *)
Definition world_with_bad_record : world plain_text :=
  mkWorld
    (<[data_file test_storage :=
         Document (JList [JObject (to_dict (emma_book 2)); record_without_year])]> ∅)
    [].

(** *** A lower with the final sigma *)

(** [str.lower] on strings of the letters A to Z and a to z, the unaccented
    Greek letters, digits and blanks.  A capital sigma becomes the final
    sigma when a letter stands before it and none after it, and the medial
    sigma elsewhere; on these strings the letter looked for is the character
    next to the sigma. *)
Definition is_letter (c : N) : bool :=
  bool_decide (65 <= c <= 90 ∨ 97 <= c <= 122
               ∨ 913 <= c <= 929 ∨ 931 <= c <= 937 ∨ 945 <= c <= 969)%N.

Definition lower_letter (c : N) : N :=
  if bool_decide (65 <= c <= 90 ∨ 913 <= c <= 929 ∨ 931 <= c <= 937)%N
  then (c + 32)%N
  else c.

Fixpoint lower_after (letter_before : bool) (s : str) : str :=
  match s with
  | [] => []
  | c :: s' =>
      (if bool_decide (c = 931)%N then
         if letter_before
            && negb (match s' with c' :: _ => is_letter c' | [] => false end)
         then 962%N
         else 963%N
       else lower_letter c)
      :: lower_after (is_letter c) s'
  end.

Definition lower_with_final_sigma (s : str) : str := lower_after false s.

(** A book titled "ΟΣΑ" and the keyword "ΟΣ". *)
Definition osa_book : Book :=
  mkBook 1 [927; 931; 913]%N (of_string "Herbert") 1965 AVAILABLE.

Definition sigma_keyword : str := [927; 931]%N.

(** *** The storage on disk: a runtime *)






(** *** The menu: vocabulary and a runtime *)

(** The seven lines of the menu. *)
Definition menu_lines : list line :=
  [MenuTitle; MenuAdd; MenuRemove; MenuSearch; MenuDisplay; MenuUpdate; MenuQuit].


(** The lines a user types to have [main] make the call [c], numbers written
    in decimal. *)
Definition typed_for (c : command) : list str :=
  match c with
  | CmdAdd title author year => [of_string "1"; title; author; str_of_int year]
  | CmdRemove book_id => [of_string "2"; str_of_int book_id]
  | CmdSearch keyword => [of_string "3"; keyword]
  | CmdDisplay => [of_string "4"]
  | CmdUpdateStatus book_id new_status =>
      [of_string "5"; str_of_int book_id; new_status]
  end.



(** Builtins for plain ASCII input: [isdigit] accepts the non-empty strings
    of the digits 0 to 9, [int] reads them in base ten, [strip] removes
    blanks at both ends. *)
Definition is_ascii_digit (c : N) : bool := bool_decide (48 <= c <= 57)%N.

Definition ascii_isdigit (s : str) : bool :=
  match s with
  | [] => false
  | _ => forallb is_ascii_digit s
  end.

Definition ascii_int (s : str) : option Z :=
  if ascii_isdigit s
  then Some (foldl (fun acc c => 10 * acc + Z.of_N (c - 48)) 0 s)
  else None.

Fixpoint lstrip (s : str) : str :=
  match s with
  | c :: s' => if bool_decide (c = 32 ∨ 9 <= c <= 13)%N then lstrip s' else s
  | [] => []
  end.

Definition ascii_strip (s : str) : str := reverse (lstrip (reverse (lstrip s))).

(** A terminal with no files, a clean screen and [typed] waiting. *)
Definition fresh_terminal (typed : list str) : terminal plain_text :=
  mkTerminal ∅ [] typed.

(** A world whose file is the JSON number 5. *)
Definition world_with_number : world plain_text :=
  mkWorld (<[data_file test_storage := Document (JInt 5)]> ∅) [].

(** A session at the menu: add Dune, issue it, remove it. *)
Definition session : list command :=
  adds [dune] ++ [CmdUpdateStatus 1 (value ISSUED); CmdRemove 1].

(** [main] on the plain runtime. *)
Definition plain_main (t : terminal plain_text) : ending * terminal plain_text :=
  main plain_loads plain_dumps ascii_lower ascii_strip ascii_isdigit ascii_int t.

(** ** Auxiliary facts *)

(** *** Maximum *)

Lemma foldl_max_spec (l : list Z) (x : Z) :
  x <= foldl Z.max x l
  ∧ (∀ y, y ∈ l -> y <= foldl Z.max x l)
  ∧ (foldl Z.max x l = x ∨ foldl Z.max x l ∈ l).
Proof.
  revert x. induction l as [|y l IH]; intros x; simpl.
  - split; [lia|]. split; [|by left]. intros y Hy. by apply elem_of_nil in Hy.
  - destruct (IH (Z.max x y)) as (Hx & Hl & Hin). split; [lia|]. split.
    + intros z [->|Hz]%elem_of_cons; [lia | by apply Hl].
    + destruct Hin as [Hin|Hin]; [|right; apply elem_of_cons; by right].
      rewrite Hin. destruct (Z.max_spec x y) as [[_ ->]|[_ ->]].
      * right. apply elem_of_cons. by left.
      * by left.
Qed.

Lemma max_default_is_max (l : list Z) (d : Z) :
  l ≠ [] -> is_max (max_default l d) l.
Proof.
  destruct l as [|x l]; [done|]. intros _. simpl.
  destruct (foldl_max_spec l x) as (Hx & Hl & Hin). split.
  - apply elem_of_cons. destruct Hin as [->|Hin]; [by left | by right].
  - intros i [->|Hi]%elem_of_cons; [done | by apply Hl].
Qed.

Lemma is_max_unique (m m' : Z) (l : list Z) :
  is_max m l -> is_max m' l -> m = m'.
Proof.
  intros [Hm Hle] [Hm' Hle']. apply Hle' in Hm. apply Hle in Hm'. lia.
Qed.

Lemma max_default_upper (l : list Z) (i : Z) :
  i ∈ l -> i <= max_default l 0.
Proof.
  intros Hi. destruct (decide (l = [])) as [->|Hne].
  - by apply elem_of_nil in Hi.
  - by apply (max_default_is_max l 0 Hne).
Qed.

Lemma max_default_snoc (l : list Z) (x : Z) :
  max_default (l ++ [x]) 0 = match l with [] => x | _ => Z.max (max_default l 0) x end.
Proof.
  destruct l as [|y l]; [done|]. simpl. by rewrite foldl_app.
Qed.

Lemma max_default_next (l : list Z) :
  max_default (l ++ [max_default l 0 + 1]) 0 = max_default l 0 + 1.
Proof.
  rewrite max_default_snoc. destruct l as [|y l]; [done|]. lia.
Qed.

(** *** Strings *)

Lemma startswith_spec (s prefix : str) :
  startswith s prefix = true ↔ ∃ post, s = prefix ++ post.
Proof.
  revert s. induction prefix as [|a prefix IH]; intros s; simpl.
  - split; [intros _; by exists s | done].
  - destruct s as [|b s].
    + split; [done | by intros [post ?]].
    + rewrite andb_true_iff, bool_decide_eq_true, IH. split.
      * intros [-> [post ->]]. by exists post.
      * intros [post [= -> ->]]. split; [done | by exists post].
Qed.

Lemma contains_spec (s sub : str) :
  contains s sub = true ↔ substring sub s.
Proof.
  unfold substring. induction s as [|b s IH]; simpl.
  - rewrite orb_false_r, startswith_spec. split.
    + intros [post ->]. by exists [], post.
    + intros ([|? pre] & post & H); [by exists post | done].
  - rewrite orb_true_iff, startswith_spec, IH. split.
    + intros [[post ->]|(pre & post & ->)]; [by exists [], post | by exists (b :: pre), post].
    + intros ([|c pre] & post & H).
      * left. by exists post.
      * right. injection H as -> ->. by exists pre, post.
Qed.

Lemma contains_empty (s : str) : contains s [] = true.
Proof. apply contains_spec. by exists [], s. Qed.

(** *** Selections *)

Lemma selects_elem_of {A} (P : A -> Prop) (l r : list A) (x : A) :
  selects P l r -> x ∈ r ↔ x ∈ l ∧ P x.
Proof.
  induction 1 as [|y l r Hy _ IH|y l r Hy _ IH].
  - split; [intros H | intros [H _]]; by apply elem_of_nil in H.
  - rewrite !elem_of_cons, IH. split.
    + intros [->|[Hx HP]]; auto.
    + intros [[->|Hx] HP]; auto.
  - rewrite elem_of_cons, IH. split.
    + intros [Hx HP]; auto.
    + intros [[->|Hx] HP]; [done | auto].
Qed.

Lemma selects_sublist {A} (P : A -> Prop) (l r : list A) :
  selects P l r -> r `sublist_of` l.
Proof.
  induction 1; [constructor | by apply sublist_skip | by apply sublist_cons].
Qed.

(** *** Status literals *)

Lemma value2member_value (st : BookStatus) :
  _value2member_map_ !! value st = Some st.
Proof. by destruct st; vm_compute. Qed.

Lemma value2member_Some (s : str) (st : BookStatus) :
  _value2member_map_ !! s = Some st -> s = value st.
Proof.
  unfold _value2member_map_. intros H.
  apply lookup_insert_Some in H as [[<- <-]|[_ H]]; [done|].
  apply lookup_insert_Some in H as [[<- <-]|[_ H]]; [done|].
  by rewrite lookup_empty in H.
Qed.

Lemma has_value_recognized (s : str) :
  has_value s = true ↔ recognized s.
Proof.
  unfold has_value, recognized. rewrite bool_decide_eq_true. split.
  - intros [st Hst]. exists st. by apply value2member_Some.
  - intros [st ->]. rewrite value2member_value. by eexists.
Qed.

Lemma BookStatus_call_value (st : BookStatus) :
  BookStatus_call (JStr (value st)) = Ok st.
Proof. simpl. by rewrite value2member_value. Qed.

Lemma BookStatus_call_unrecognized (v : json) :
  (∀ st, v ≠ JStr (value st)) -> BookStatus_call v = Raise ValueError.
Proof.
  intros Hv. destruct v as [| | | |s| |]; try done. simpl.
  destruct (_value2member_map_ !! s) as [st|] eqn:Hs; [|done].
  apply value2member_Some in Hs as ->. by destruct (Hv st).
Qed.

(** *** Records *)

Lemma from_dict_to_dict (book : Book) :
  from_dict (JObject (to_dict book)) = Ok book.
Proof. destruct book as [i t a y [|]]; vm_compute; reflexivity. Qed.

Lemma from_dict_raises (data : json) (e : exn) :
  from_dict data = Raise e ->
  e = TypeError ∨ e = ValueError ∨ ∃ key, e = KeyError key.
Proof.
  unfold from_dict, subscript, getitem, BookStatus_call, as_int, as_str.
  intros H.
  repeat match type of H with
         | context [match ?x with _ => _ end] => destruct x; simpl in H
         end;
    simplify_eq; eauto.
Qed.

Lemma comprehension_Raise {A B} (f : A -> result B) (l : list A) (x : A) (e : exn) :
  x ∈ l -> f x = Raise e ->
  ∃ pre x' post e',
    l = pre ++ x' :: post
    ∧ (∀ y e0, y ∈ pre -> f y ≠ Raise e0)
    ∧ f x' = Raise e'
    ∧ comprehension f l = Raise e'.
Proof.
  intros Hx Hfx. induction l as [|y l IH]; [by apply elem_of_nil in Hx|].
  destruct (f y) as [b|e1|] eqn:Hfy.
  - apply elem_of_cons in Hx as [->|Hx]; [congruence|].
    destruct (IH Hx) as (pre & x' & post & e' & -> & Hpre & Hx' & Hc).
    exists (y :: pre), x', post, e'. simpl. rewrite Hfy, Hc.
    split_and!; [done| |done|done].
    intros z e0 [->|Hz]%elem_of_cons; [congruence | by apply Hpre].
  - exists [], y, l, e1. simpl. rewrite Hfy. split_and!; [done| |done|done].
    intros z e0 Hz. by apply elem_of_nil in Hz.
  - apply elem_of_cons in Hx as [->|Hx]; [congruence|].
    destruct (IH Hx) as (pre & x' & post & e' & -> & Hpre & Hx' & Hc).
    exists (y :: pre), x', post, e'. simpl. rewrite Hfy, Hc.
    split_and!; [done| |done|done].
    intros z e0 [->|Hz]%elem_of_cons; [congruence | by apply Hpre].
Qed.

(** *** Finding a book by id *)

Lemma next_with_id_Some (books : list Book) (k : Z) (i : nat) (book : Book) :
  next_with_id books k = Some (i, book) ->
  ∃ pre post,
    books = pre ++ book :: post ∧ length pre = i ∧ id book = k ∧ k ∉ ids pre.
Proof.
  unfold next_with_id. revert i.
  induction books as [|x books IH]; intros i H; [done|].
  csimpl in H. case_decide as Hx.
  - simplify_eq. exists [], books. split_and!; try done. apply not_elem_of_nil.
  - apply fmap_Some in H as ([j y] & Hj & Heq). simplify_eq/=.
    destruct (IH _ Hj) as (pre & post & -> & <- & Hid & Hpre).
    exists (x :: pre), post. split_and!; try done.
    unfold ids. simpl. apply not_elem_of_cons. by split.
Qed.

Lemma next_with_id_None (books : list Book) (k : Z) :
  next_with_id books k = None ↔ k ∉ ids books.
Proof.
  unfold next_with_id, ids. rewrite list_find_None, Forall_forall. split.
  - intros H (x & -> & Hx)%list_elem_of_fmap. by apply (H x).
  - intros H x Hx Hid. apply H, list_elem_of_fmap. by exists x.
Qed.

Lemma next_with_id_middle (pre post : list Book) (book : Book) :
  id book ∉ ids pre ->
  next_with_id (pre ++ book :: post) (id book) = Some (length pre, book).
Proof.
  unfold next_with_id, ids. induction pre as [|x pre IH]; intros Hpre; csimpl.
  - by rewrite decide_True.
  - apply not_elem_of_cons in Hpre as [Hx Hpre].
    rewrite decide_False by done. by rewrite IH.
Qed.

Lemma next_with_id_found (books : list Book) (k : Z) :
  k ∈ ids books ->
  ∃ pre book post,
    books = pre ++ book :: post ∧ id book = k ∧ (k ∉ ids pre)
    ∧ next_with_id books k = Some (length pre, book).
Proof.
  intros Hk. destruct (next_with_id books k) as [[i book]|] eqn:H.
  - destruct (next_with_id_Some _ _ _ _ H) as (pre & post & -> & <- & Hid & Hpre).
    by exists pre, book, post.
  - by apply next_with_id_None in H.
Qed.

Lemma alter_middle {A} (f : A -> A) (l1 l2 : list A) (x : A) :
  alter f (length l1) (l1 ++ x :: l2) = l1 ++ f x :: l2.
Proof. induction l1 as [|y l1 IH]; [done|]. simpl. by f_equal. Qed.

(** *** Numbered books *)

Lemma ids_numbered (k : nat) (args : list add_args) :
  ids (numbered (Z.of_nat k) args) = Z.of_nat <$> seq k (length args).
Proof.
  revert k. induction args as [|[[t a] y] args IH]; intros k; [done|].
  simpl. f_equal. replace (Z.of_nat k + 1) with (Z.of_nat (S k)) by lia.
  apply IH.
Qed.

Lemma assigned_ids_app (out1 out2 : list message) :
  assigned_ids (out1 ++ out2) = assigned_ids out1 ++ assigned_ids out2.
Proof. unfold assigned_ids. apply omap_app. Qed.

(** ** The catalogue *)

Section Properties.

Context {text : Type}.
Context (json_loads : text -> option json) (json_dumps : json -> text).
Context (lower : str -> str).

Implicit Types (self : Library) (w : world text) (book : Book).

Lemma next_id_above (books : list Book) (i : Z) :
  i ∈ ids books -> i < next_id books.
Proof. intros Hi%max_default_upper. unfold next_id. lia. Qed.

Lemma next_id_fresh (books : list Book) : next_id books ∉ ids books.
Proof. intros H%next_id_above. lia. Qed.

Lemma next_id_snoc (books : list Book) (t a : str) (y : Z) (st : BookStatus) :
  next_id (books ++ [mkBook (next_id books) t a y st]) = next_id books + 1.
Proof.
  unfold next_id, ids. rewrite map_app. simpl.
  by rewrite max_default_next.
Qed.

Lemma add_book_eq self (t a : str) (y : Z) w :
  add_book json_dumps self t a y w =
    let books' := books self ++ [mkBook (next_id (books self)) t a y AVAILABLE] in
    Ok (mkLibrary (storage self) books',
        print (MsgAdded t (next_id (books self)))
          (save_books json_dumps (storage self) books' w)).
Proof. reflexivity. Qed.

Lemma run_adds (st : LibraryStorage) (args : list add_args) (bs : list Book) w :
  ∃ w',
    run json_dumps lower (adds args) (mkLibrary st bs) w
      = Ok (mkLibrary st (bs ++ numbered (next_id bs) args), w')
    ∧ assigned_ids (stdout w')
      = assigned_ids (stdout w) ++ ids (numbered (next_id bs) args).
Proof.
  revert bs w. induction args as [|[[t a] y] args IH]; intros bs w.
  - exists w. simpl. by rewrite !app_nil_r.
  - change (adds ((t, a, y) :: args)) with (CmdAdd t a y :: adds args).
    cbn [run call]. rewrite add_book_eq. cbn [bind fst snd storage books].
    destruct (IH (bs ++ [mkBook (next_id bs) t a y AVAILABLE])
                (print (MsgAdded t (next_id bs))
                   (save_books json_dumps st
                      (bs ++ [mkBook (next_id bs) t a y AVAILABLE]) w)))
      as (w' & Hrun & Hout).
    exists w'. rewrite next_id_snoc in Hrun, Hout. split.
    + rewrite Hrun. by rewrite <- app_assoc.
    + rewrite Hout. simpl. rewrite assigned_ids_app. simpl.
      by rewrite <- app_assoc.
Qed.

(** C1. [add_book] gives the new book the greatest id of the collection plus
    one, or 1 when the collection is empty, and appends it at the end with the
    title, author and year it was given and the status [AVAILABLE].  [N]
    calls on an empty collection leave the books of the calls in call order
    with the ids 1 to [N], which are also the ids announced on the console. *)
Theorem add_book_assigns_next_id :
  (∀ self (title author : str) (year : Z) w,
      ∃ new_id w',
        add_book json_dumps self title author year w
          = Ok (mkLibrary (storage self)
                  (books self ++ [mkBook new_id title author year AVAILABLE]),
                w')
        ∧ (books self = [] -> new_id = 1)
        ∧ (books self ≠ [] -> ∃ m, is_max m (ids (books self)))
        ∧ (∀ m, is_max m (ids (books self)) -> new_id = m + 1))
  ∧ (∀ (st : LibraryStorage) (args : list add_args) w,
      ∃ self' w',
        run json_dumps lower (adds args) (mkLibrary st []) w = Ok (self', w')
        ∧ books self' = numbered 1 args
        ∧ ids (books self') = Z.of_nat <$> seq 1 (length args)
        ∧ assigned_ids (stdout w')
          = assigned_ids (stdout w) ++ (Z.of_nat <$> seq 1 (length args))).
Proof.
  split.
  - intros self title author year w. rewrite add_book_eq. simpl.
    assert (books self ≠ [] -> is_max (max_default (ids (books self)) 0) (ids (books self)))
      as Hmax.
    { intros Hne. apply max_default_is_max. unfold ids. by destruct (books self). }
    eexists _, _. split; [reflexivity|]. split_and!.
    + by intros ->.
    + intros Hne. eexists. by apply Hmax.
    + intros m Hm. unfold next_id. f_equal.
      apply (is_max_unique _ _ (ids (books self))); [|done].
      apply Hmax. intros Hnil. destruct Hm as [Hm _].
      rewrite Hnil in Hm. by apply elem_of_nil in Hm.
  - intros st args w. destruct (run_adds st args [] w) as (w' & Hrun & Hout).
    change (next_id []) with (Z.of_nat 1) in Hrun, Hout.
    rewrite ids_numbered in Hout.
    eexists _, w'. split; [exact Hrun|]. simpl.
    split; [done|]. split; [|done]. apply (ids_numbered 1).
Qed.

(** *** Search *)

Lemma search_test_matches (keyword : str) book :
  contains (lower (title book)) (lower keyword)
  || contains (lower (author book)) (lower keyword)
  || bool_decide (keyword = str_of_int (year book)) = true
  ↔ matches lower keyword book.
Proof.
  unfold matches, lowered_occurs.
  rewrite !orb_true_iff, !contains_spec, bool_decide_eq_true.
  split; [intros [[?|?]|?] | intros [?|[?|?]]]; auto.
Qed.

Lemma search_books_selects self (keyword : str) :
  selects (matches lower keyword) (books self) (search_books lower self keyword).
Proof.
  unfold search_books. induction (books self) as [|book bs IH]; simpl.
  - constructor.
  - destruct (contains (lower (title book)) (lower keyword)
              || contains (lower (author book)) (lower keyword)
              || bool_decide (keyword = str_of_int (year book))) eqn:Hb.
    + apply selects_keep; [|done]. by apply search_test_matches.
    + apply selects_skip; [|done]. rewrite <- search_test_matches, Hb. done.
Qed.

Lemma selects_ext {A} (P Q : A -> Prop) (l r : list A) :
  selects P l r -> (∀ x, x ∈ l -> P x ↔ Q x) -> selects Q l r.
Proof.
  induction 1 as [|x l r Hx _ IH|x l r Hx _ IH]; intros HPQ.
  - constructor.
  - apply selects_keep.
    + apply HPQ; [apply elem_of_cons; by left | done].
    + apply IH. intros y Hy. apply HPQ, elem_of_cons. by right.
  - apply selects_skip.
    + intros HQ. apply Hx, HPQ; [apply elem_of_cons; by left | done].
    + apply IH. intros y Hy. apply HPQ, elem_of_cons. by right.
Qed.

Lemma map_app_inv {A B} (f : A -> B) (s : list A) (k1 k2 : list B) :
  map f s = k1 ++ k2 -> ∃ s1 s2, s = s1 ++ s2 ∧ map f s1 = k1 ∧ map f s2 = k2.
Proof.
  revert s. induction k1 as [|b k1 IH]; intros s H.
  - by exists [], s.
  - destruct s as [|a s]; [done|]. simpl in H. injection H as Hb H.
    destruct (IH s H) as (s1 & s2 & -> & H1 & H2).
    exists (a :: s1), s2. simpl. by rewrite Hb, H1.
Qed.

(** Where [lower] works on each character on its own, the test of the source
    is containment up to case. *)
Lemma lowered_occurs_up_to_case (plain : N -> Prop) (lower_char : N -> N)
    (keyword s : str) :
  (∀ s', Forall plain s' -> lower s' = map lower_char s') ->
  Forall plain keyword ->
  Forall plain s ->
  lowered_occurs lower keyword s ↔ contains_up_to_case lower keyword s.
Proof.
  intros Hlower Hkw Hs.
  unfold lowered_occurs, contains_up_to_case, equal_up_to_case, substring. split.
  - intros (pre & post & H). rewrite (Hlower s Hs) in H.
    apply map_app_inv in H as (s1 & s23 & -> & H1 & H).
    apply map_app_inv in H as (s2 & s3 & -> & H2 & H3).
    exists s1, s2, s3. split; [done|].
    apply Forall_app in Hs as [_ Hs]. apply Forall_app in Hs as [Hs2 _].
    by rewrite (Hlower s2 Hs2).
  - intros (pre & mid & post & -> & Hmid).
    rewrite (Hlower _ Hs), !map_app.
    apply Forall_app in Hs as [_ Hs]. apply Forall_app in Hs as [Hs2 _].
    rewrite <- (Hlower mid Hs2), Hmid. by eexists _, _.
Qed.

(** C2, amended.  [search_books] returns, in the order of the collection,
    exactly the books for which the lowered keyword occurs in the lowered
    title or the lowered author, or whose year printed in decimal is the
    keyword.  Where [lower] works on each character on its own, on the
    keyword and on the titles and authors of the collection, these are the
    books whose title or author contains the keyword up to case. *)
Theorem search_books_selects_matches self (keyword : str) :
  selects (matches lower keyword) (books self) (search_books lower self keyword)
  ∧ ∀ (plain : N -> Prop) (lower_char : N -> N),
      (∀ s, Forall plain s -> lower s = map lower_char s) ->
      Forall plain keyword ->
      (∀ book, book ∈ books self ->
         Forall plain (title book) ∧ Forall plain (author book)) ->
      selects (matches_up_to_case lower keyword) (books self)
        (search_books lower self keyword).
Proof.
  split; [apply search_books_selects|].
  intros plain lower_char Hlower Hkw Hbooks.
  apply (selects_ext (matches lower keyword)); [apply search_books_selects|].
  intros book Hbook. destruct (Hbooks book Hbook) as [Ht Ha].
  unfold matches, matches_up_to_case.
  rewrite (lowered_occurs_up_to_case plain lower_char keyword (title book)) by done.
  by rewrite (lowered_occurs_up_to_case plain lower_char keyword (author book)).
Qed.

(** C10. The empty keyword selects the whole collection, in order: the empty
    string lowers to itself and occurs in every title. *)
Theorem search_books_empty_keyword self :
  lower [] = [] -> search_books lower self [] = books self.
Proof.
  intros Hlower. unfold search_books. rewrite Hlower.
  induction (books self) as [|book bs IH]; [done|].
  simpl. rewrite contains_empty. simpl. by rewrite IH.
Qed.

(** *** Storage *)

Lemma comprehension_document (bs : list Book) :
  comprehension from_dict (map (fun book => JObject (to_dict book)) bs) = Ok bs.
Proof.
  induction bs as [|book bs IH]; [done|].
  simpl. by rewrite from_dict_to_dict, IH.
Qed.

(** C5, amended.  A record that has the five keys and whose status is not the
    value of a member fails with [ValueError]; a record that lacks a required
    key fails with a [KeyError] for the first key it lacks, which is not a
    [ValueError]; and when the file holds a JSON array with a failing record,
    [load_books] raises the error of the first failing item instead of
    returning a collection. *)
Theorem from_dict_failures :
  (∀ (d : gmap str json) (v : json),
      (∀ key, key ∈ required_keys -> is_Some (d !! key)) ->
      d !! key_status = Some v ->
      (∀ st, v ≠ JStr (value st)) ->
      from_dict (JObject d) = Raise ValueError)
  ∧ (∀ (d : gmap str json) (key : str),
      key ∈ required_keys ->
      d !! key = None ->
      ∃ present key' rest,
        required_keys = present ++ key' :: rest
        ∧ (∀ k, k ∈ present -> is_Some (d !! k))
        ∧ d !! key' = None
        ∧ from_dict (JObject d) = Raise (KeyError key')
        ∧ isinstance_ValueError (KeyError key') = false)
  ∧ (∀ (st : LibraryStorage) w (t : text) (l : list json) (r : json) (e : exn),
      files w !! data_file st = Some t ->
      json_loads t = Some (JList l) ->
      r ∈ l ->
      from_dict r = Raise e ->
      ∃ pre r' post e',
        l = pre ++ r' :: post
        ∧ (∀ x e0, x ∈ pre -> from_dict x ≠ Raise e0)
        ∧ from_dict r' = Raise e'
        ∧ load_books json_loads st w = Raise e').
Proof.
  clear json_dumps lower. split_and!.
  - intros d v Hkeys Hstatus Hv.
    assert (∀ key, key ∈ required_keys -> ∃ x, d !! key = Some x) as Hk
      by (intros key Hkey; apply Hkeys, Hkey).
    unfold required_keys in Hk.
    destruct (Hk key_id) as [vi Hi]; [set_solver|].
    destruct (Hk key_title) as [vt Ht]; [set_solver|].
    destruct (Hk key_author) as [va Ha]; [set_solver|].
    destruct (Hk key_year) as [vy Hy]; [set_solver|].
    unfold from_dict, subscript, getitem.
    rewrite Hi, Ht, Ha, Hy, Hstatus. simpl.
    by rewrite BookStatus_call_unrecognized.
  - intros d key Hkey Hnone.
    unfold from_dict, subscript, getitem, required_keys.
    destruct (d !! key_id) as [vi|] eqn:Hi; simpl;
      [|exists [], key_id; eexists; split_and!; try done; set_solver].
    destruct (d !! key_title) as [vt|] eqn:Ht; simpl;
      [|exists [key_id], key_title; eexists; split_and!; try done;
        intros k ->%list_elem_of_singleton; eauto].
    destruct (d !! key_author) as [va|] eqn:Ha; simpl;
      [|exists [key_id; key_title], key_author; eexists; split_and!; try done;
        intros k Hk; repeat apply elem_of_cons in Hk as [->|Hk]; eauto;
        by apply elem_of_nil in Hk].
    destruct (d !! key_year) as [vy|] eqn:Hy; simpl;
      [|exists [key_id; key_title; key_author], key_year; eexists;
        split_and!; try done;
        intros k Hk; repeat apply elem_of_cons in Hk as [->|Hk]; eauto;
        by apply elem_of_nil in Hk].
    destruct (d !! key_status) as [vs|] eqn:Hs; simpl;
      [|exists [key_id; key_title; key_author; key_year], key_status, [];
        split_and!; try done;
        intros k Hk; repeat apply elem_of_cons in Hk as [->|Hk]; eauto;
        by apply elem_of_nil in Hk].
    unfold required_keys in Hkey.
    repeat apply elem_of_cons in Hkey as [->|Hkey]; try congruence.
    by apply elem_of_nil in Hkey.
  - intros st w t l r e Hfile Hjson Hr He.
    destruct (comprehension_Raise from_dict l r e Hr He)
      as (pre & r' & post & e' & Hl & Hpre & Hr' & Hc).
    exists pre, r', post, e'. split_and!; try done.
    unfold load_books, open_read, json_load. rewrite Hfile. simpl.
    rewrite Hjson. simpl. rewrite Hc. simpl.
    by destruct (from_dict_raises _ _ Hr') as [->|[->|[k ->]]].
Qed.

(** *** Removing and updating *)

Lemma remove_book_missing self (book_id : Z) w :
  book_id ∉ ids (books self) ->
  remove_book json_dumps self book_id w = Ok (self, print (MsgNotFound book_id) w).
Proof. intros H%next_with_id_None. unfold remove_book. by rewrite H. Qed.

Lemma remove_book_found (st : LibraryStorage) (pre post : list Book) book w :
  id book ∉ ids pre ->
  remove_book json_dumps (mkLibrary st (pre ++ book :: post)) (id book) w
    = Ok (mkLibrary st (pre ++ post),
          print (MsgRemoved (id book))
            (save_books json_dumps st (pre ++ post) w)).
Proof.
  intros Hpre. unfold remove_book. simpl.
  rewrite next_with_id_middle by done. simpl. by rewrite delete_middle.
Qed.

Lemma update_status_missing self (book_id : Z) (new_status : str) w :
  book_id ∉ ids (books self) ->
  update_status json_dumps self book_id new_status w
    = Ok (self, print (MsgNotFound book_id) w).
Proof. intros H%next_with_id_None. unfold update_status. by rewrite H. Qed.

Lemma update_status_recognized (st : LibraryStorage) (pre post : list Book)
    book (new : BookStatus) w :
  id book ∉ ids pre ->
  update_status json_dumps (mkLibrary st (pre ++ book :: post)) (id book) (value new) w
    = Ok (mkLibrary st (pre ++ set_status new book :: post),
          print (MsgStatusUpdated (id book) (value new))
            (save_books json_dumps st (pre ++ set_status new book :: post) w)).
Proof.
  intros Hpre. unfold update_status. cbn [books storage].
  rewrite next_with_id_middle by done.
  rewrite (proj2 (has_value_recognized (value new))) by (by exists new).
  rewrite BookStatus_call_value. simpl. by rewrite alter_middle.
Qed.

Lemma update_status_unrecognized self (book_id : Z) (new_status : str) w :
  book_id ∈ ids (books self) ->
  ¬ recognized new_status ->
  update_status json_dumps self book_id new_status w
    = Ok (self, print MsgInvalidStatus w).
Proof.
  intros (pre & book & post & _ & _ & _ & Hfind)%next_with_id_found Hnew.
  unfold update_status. rewrite Hfind.
  destruct (has_value new_status) eqn:Hhas; [|done].
  by apply has_value_recognized in Hhas.
Qed.

(** C6. When the collection holds a book with the given id, a recognized
    status literal replaces the status of the first such book and nothing
    else: its id, title, author and year and every other book stay as they
    were.  A literal that is not recognized leaves the whole collection as it
    was. *)
Theorem update_status_changes_only_status self (book_id : Z) (new_status : str) w :
  book_id ∈ ids (books self) ->
  ∃ pre book post,
    books self = pre ++ book :: post
    ∧ id book = book_id
    ∧ (book_id ∉ ids pre)
    ∧ (∀ new, new_status = value new ->
        ∃ w',
          update_status json_dumps self book_id new_status w
            = Ok (mkLibrary (storage self)
                    (pre ++ mkBook (id book) (title book) (author book)
                              (year book) new :: post),
                  w'))
    ∧ (¬ recognized new_status ->
        update_status json_dumps self book_id new_status w
          = Ok (self, print MsgInvalidStatus w)).
Proof.
  intros Hid.
  destruct (next_with_id_found _ _ Hid) as (pre & book & post & Hbooks & Hb & Hpre & _).
  exists pre, book, post. split_and!; try done.
  - intros new ->. destruct self as [st bs]. simpl in *. subst bs book_id.
    rewrite update_status_recognized by done. by eexists.
  - intros Hnew. by apply update_status_unrecognized.
Qed.

(** C7. For an id that no book has, [remove_book] and [update_status] return
    normally, print the not-found line and change neither the collection nor
    the files.  Removing an id that occurs once deletes that book; removing
    it a second time only prints the not-found line. *)
Theorem unknown_id_is_only_reported :
  (∀ self (book_id : Z) (new_status : str) w,
      book_id ∉ ids (books self) ->
      remove_book json_dumps self book_id w
        = Ok (self, print (MsgNotFound book_id) w)
      ∧ update_status json_dumps self book_id new_status w
        = Ok (self, print (MsgNotFound book_id) w))
  ∧ (∀ (st : LibraryStorage) (pre post : list Book) book w,
      id book ∉ ids pre ->
      id book ∉ ids post ->
      ∃ w1,
        remove_book json_dumps (mkLibrary st (pre ++ book :: post)) (id book) w
          = Ok (mkLibrary st (pre ++ post), w1)
        ∧ stdout w1 = stdout w ++ [MsgRemoved (id book)]
        ∧ remove_book json_dumps (mkLibrary st (pre ++ post)) (id book) w1
          = Ok (mkLibrary st (pre ++ post), print (MsgNotFound (id book)) w1)).
Proof.
  split.
  - intros self book_id new_status w Hid. split.
    + by apply remove_book_missing.
    + by apply update_status_missing.
  - intros st pre post book w Hpre Hpost.
    rewrite remove_book_found by done. eexists. split; [reflexivity|].
    split; [done|]. apply remove_book_missing. simpl.
    unfold ids in *. rewrite map_app. intros [?|?]%elem_of_app; tauto.
Qed.

(** *** Invariants of the collection *)

Lemma ids_set_status (new : BookStatus) (pre post : list Book) book :
  ids (pre ++ set_status new book :: post) = ids (pre ++ book :: post).
Proof. unfold ids. by rewrite !map_app. Qed.

(** Every call either appends a book with the next id or leaves a sublist of
    ids; it never raises. *)
Lemma call_ids (c : command) self w :
  ∃ self' w',
    call json_dumps lower c self w = Ok (self', w')
    ∧ storage self' = storage self
    ∧ (ids (books self') = ids (books self) ++ [next_id (books self)]
       ∨ ids (books self') `sublist_of` ids (books self)).
Proof.
  destruct c as [t a y|k|kw| |k new_status]; simpl.
  - rewrite add_book_eq. eexists _, _. split; [reflexivity|]. split; [done|].
    left. simpl. unfold ids. by rewrite map_app.
  - destruct (decide (k ∈ ids (books self))) as [Hk|Hk].
    + destruct (next_with_id_found _ _ Hk) as (pre & book & post & Hb & <- & Hpre & _).
      destruct self as [st bs]. simpl in *. subst bs.
      rewrite remove_book_found by done. eexists _, _.
      split; [reflexivity|]. split; [done|]. right. simpl. unfold ids.
      rewrite !map_app. simpl. apply sublist_app; [done|]. by apply sublist_cons.
    + rewrite remove_book_missing by done. eexists _, _.
      split; [reflexivity|]. split; [done|]. by right.
  - eexists _, _. split; [reflexivity|]. split; [done|]. by right.
  - eexists _, _. split; [reflexivity|]. split; [done|]. by right.
  - destruct (decide (k ∈ ids (books self))) as [Hk|Hk].
    + destruct (has_value new_status) eqn:Hhas.
      * apply has_value_recognized in Hhas as [new ->].
        destruct (next_with_id_found _ _ Hk) as (pre & book & post & Hb & <- & Hpre & _).
        destruct self as [st bs]. simpl in *. subst bs.
        rewrite update_status_recognized by done. eexists _, _.
        split; [reflexivity|]. split; [done|]. right. simpl.
        by rewrite ids_set_status.
      * rewrite update_status_unrecognized; [|done|].
        -- eexists _, _. split; [reflexivity|]. split; [done|]. by right.
        -- intros Hrec%has_value_recognized. congruence.
    + rewrite update_status_missing by done. eexists _, _.
      split; [reflexivity|]. split; [done|]. by right.
Qed.

(** C9. Distinctness of the ids is kept by every operation of the catalogue:
    adding, removing, updating a status, searching and listing all return
    normally and leave a collection whose ids are pairwise distinct. *)
Theorem calls_preserve_distinct_ids (c : command) self w :
  NoDup (ids (books self)) ->
  ∃ self' w',
    call json_dumps lower c self w = Ok (self', w')
    ∧ NoDup (ids (books self')).
Proof.
  intros Hnodup.
  destruct (call_ids c self w) as (self' & w' & Hcall & _ & [Hids|Hids]).
  - exists self', w'. split; [done|]. rewrite Hids.
    apply NoDup_app. split_and!; [done| |apply NoDup_singleton].
    intros i Hi ->%list_elem_of_singleton. by apply next_id_fresh in Hi.
  - exists self', w'. split; [done|]. by apply (sublist_NoDup _ _ Hnodup).
Qed.

Lemma run_positive_ids (cs : list command) self w :
  (∀ i, i ∈ ids (books self) -> 0 < i) ->
  ∃ self' w',
    run json_dumps lower cs self w = Ok (self', w')
    ∧ ∀ i, i ∈ ids (books self') -> 0 < i.
Proof.
  revert self w. induction cs as [|c cs IH]; intros self w Hpos.
  - by exists self, w.
  - destruct (call_ids c self w) as (self1 & w1 & Hcall & _ & Hids).
    cbn [run]. rewrite Hcall. cbn [bind fst snd]. apply IH.
    intros i Hi. destruct Hids as [Hids|Hids].
    + rewrite Hids in Hi. apply elem_of_app in Hi as [Hi| ->%list_elem_of_singleton];
        [by apply Hpos|].
      unfold next_id. destruct (decide (ids (books self) = [])) as [->|Hne]; [done|].
      destruct (max_default_is_max _ 0 Hne) as [Hin _]. apply Hpos in Hin. lia.
    + apply Hpos. by eapply elem_of_sublist.
Qed.

Lemma remove_newest (self : Library) (book : Book) (w : world text) :
  id book ∉ ids (books self) ->
  remove_book json_dumps (mkLibrary (storage self) (books self ++ [book])) (id book) w
  = Ok (self,
        print (MsgRemoved (id book))
          (save_books json_dumps (storage self) (books self) w)).
Proof.
  intros Hfresh.
  rewrite (remove_book_found (storage self) (books self) [] book w Hfresh).
  rewrite app_nil_r. by destruct self.
Qed.

(** C8, amended.  After any sequence of operations on an empty collection,
    the id [add_book] assigns is positive and greater than the id of every
    book then in the collection, so it is the id of no present book.  The ids
    of removed books are assigned again: when the book just added is removed,
    the next [add_book] assigns the same id once more. *)
Theorem add_book_id_above_present (st : LibraryStorage) (cs : list command)
    w self' w' (title author : str) (year : Z) :
  run json_dumps lower cs (mkLibrary st []) w = Ok (self', w') ->
  ∃ new_id w'',
    add_book json_dumps self' title author year w'
      = Ok (mkLibrary (storage self')
              (books self' ++ [mkBook new_id title author year AVAILABLE]),
            w'')
    ∧ 0 < new_id
    ∧ (∀ i, i ∈ ids (books self') -> i < new_id)
    ∧ (new_id ∉ ids (books self'))
    ∧ ∀ (title2 author2 : str) (year2 : Z),
        ∃ w2 w3,
          remove_book json_dumps
            (mkLibrary (storage self')
               (books self' ++ [mkBook new_id title author year AVAILABLE]))
            new_id w''
          = Ok (self', w2)
          ∧ add_book json_dumps self' title2 author2 year2 w2
            = Ok (mkLibrary (storage self')
                    (books self' ++ [mkBook new_id title2 author2 year2 AVAILABLE]),
                  w3).
Proof.
  intros Hrun.
  destruct (run_positive_ids cs (mkLibrary st []) w) as (s & w0 & Hrun' & Hpos).
  { intros i Hi. by apply elem_of_nil in Hi. }
  rewrite Hrun in Hrun'. injection Hrun' as <- <-.
  rewrite add_book_eq. eexists _, _. split; [reflexivity|]. split_and!.
  - unfold next_id. destruct (decide (ids (books self') = [])) as [->|Hne]; [done|].
    destruct (max_default_is_max _ 0 Hne) as [Hin _]. apply Hpos in Hin. lia.
  - apply next_id_above.
  - apply next_id_fresh.
  - intros title2 author2 year2.
    rewrite (remove_newest self' (mkBook (next_id (books self')) title author year AVAILABLE))
      by apply next_id_fresh.
    eexists _, _. split; [reflexivity|]. by rewrite add_book_eq.
Qed.

End Properties.

(** ** The storage on disk *)

Section DiskProperties.

Context {text : Type}.
Context (json_loads : text -> option json) (json_dumps json_dump_cut : json -> text).

Implicit Types (st : LibraryStorage) (w : Disk.world text).

(** On a file that decodes and may be read, loading from the disk is
    loading its text. *)
Lemma Disk_load_books_agrees st w (out : list message) :
  data_file st ∉ Disk.read_denied w ->
  (∀ raw, Disk.files w !! data_file st ≠ Some (Disk.NotUTF8 raw)) ->
  Disk.load_books json_loads st w
  = load_books json_loads st (mkWorld (Disk.texts w) out).
Proof.
  intros Hread Hutf8.
  unfold Disk.load_books, load_books, Disk.open_read, open_read, Disk.texts.
  cbn [files]. rewrite lookup_omap.
  destruct (Disk.files w !! data_file st) as [[t|raw]|] eqn:Hfile; simpl.
  - by rewrite decide_False.
  - by destruct (Hutf8 raw).
  - done.
Qed.

(** A collection whose strings encode, saved to a file that may be written,
    leaves on the disk the text that the section above puts in the file. *)
Lemma Disk_save_books_agrees st (bs : list Book) w (out : list message) :
  data_file st ∉ Disk.write_denied w ->
  forallb Disk.writable bs = true ->
  ∃ w',
    Disk.save_books json_dumps json_dump_cut st bs w = (Ok tt, w')
    ∧ Disk.texts w'
      = files (save_books json_dumps st bs (mkWorld (Disk.texts w) out)).
Proof.
  intros Hwrite Hbs. unfold Disk.save_books.
  rewrite decide_False by done. rewrite Hbs. eexists. split; [reflexivity|].
  unfold Disk.texts. cbn. by rewrite omap_insert_Some with (y := json_dumps (document bs)).
Qed.




End DiskProperties.

(** ** Runs on concrete inputs *)

Example str_of_int_examples :
  str_of_int 2023 = of_string "2023"
  ∧ str_of_int 0 = of_string "0"
  ∧ str_of_int (-44) = of_string "-44".
Proof. by vm_compute. Qed.

Example Library_init_without_file :
  Library_init plain_loads test_storage no_files = Ok (mkLibrary test_storage []).
Proof. reflexivity. Qed.

Example Library_init_reads_file :
  Library_init plain_loads test_storage (world_holding [dune_book ISSUED] [])
  = Ok (mkLibrary test_storage [dune_book ISSUED]).
Proof. reflexivity. Qed.

(** The four tests of [tests.py]. *)

Example test_add_book :
  run plain_dumps ascii_lower (adds [dune]) (mkLibrary test_storage []) no_files
  = Ok (mkLibrary test_storage [dune_book AVAILABLE],
        world_holding [dune_book AVAILABLE] [MsgAdded (of_string "Dune") 1]).
Proof. reflexivity. Qed.

Example test_remove_book :
  run plain_dumps ascii_lower (adds [dune] ++ [CmdRemove 1])
    (mkLibrary test_storage []) no_files
  = Ok (mkLibrary test_storage [],
        world_holding [] [MsgAdded (of_string "Dune") 1; MsgRemoved 1]).
Proof. reflexivity. Qed.

Example test_search_books :
  search_books ascii_lower two_books (of_string "dUNE") = [dune_book AVAILABLE]
  ∧ search_books ascii_lower two_books (of_string "aust") = [emma_book 2]
  ∧ search_books ascii_lower two_books (of_string "1815") = [emma_book 2]
  ∧ search_books ascii_lower two_books (of_string "181") = []
  ∧ search_books ascii_lower two_books (of_string "Tolkien") = [].
Proof. by vm_compute. Qed.

Example test_update_status :
  run plain_dumps ascii_lower (adds [dune] ++ [CmdUpdateStatus 1 (value ISSUED)])
    (mkLibrary test_storage []) no_files
  = Ok (mkLibrary test_storage [dune_book ISSUED],
        world_holding [dune_book ISSUED]
          [MsgAdded (of_string "Dune") 1; MsgStatusUpdated 1 (value ISSUED)]).
Proof. reflexivity. Qed.

(** The scenario of the specification: add, issue, remove, remove again. *)
Example scenario_add_issue_remove_twice :
  run plain_dumps ascii_lower
    (adds [dune] ++ [CmdUpdateStatus 1 (value ISSUED); CmdRemove 1; CmdRemove 1])
    (mkLibrary test_storage []) no_files
  = Ok (mkLibrary test_storage [],
        world_holding []
          [MsgAdded (of_string "Dune") 1; MsgStatusUpdated 1 (value ISSUED);
           MsgRemoved 1; MsgNotFound 1]).
Proof. reflexivity. Qed.

(** C5, as stated, fails: the record of Dune without its "year" key makes
    [from_dict] raise [KeyError], and no [ValueError]. *)
Lemma missing_key_is_not_a_ValueError :
  from_dict record_without_year = Raise (KeyError key_year)
  ∧ ¬ ∃ e, from_dict record_without_year = Raise e ∧ isinstance_ValueError e = true.
Proof.
  split; [by vm_compute|]. intros (e & He & Hv).
  assert (from_dict record_without_year = Raise (KeyError key_year)) as H
    by (by vm_compute).
  rewrite H in He. by injection He as <-.
Qed.

(** C8, as stated, fails: id 1 is assigned to Dune, Dune is removed, and the
    next [add_book] assigns id 1 again, to Emma. *)
Lemma id_reused_after_remove :
  run plain_dumps ascii_lower (adds [dune] ++ [CmdRemove 1] ++ adds [emma])
    (mkLibrary test_storage []) no_files
  = Ok (mkLibrary test_storage [emma_book 1],
        world_holding [emma_book 1]
          [MsgAdded (of_string "Dune") 1; MsgRemoved 1; MsgAdded (of_string "Emma") 1])
  ∧ assigned_ids
      [MsgAdded (of_string "Dune") 1; MsgRemoved 1; MsgAdded (of_string "Emma") 1]
    = [1; 1].
Proof. split; reflexivity. Qed.

(** ** The theorems at work *)

Lemma from_dict_failures_witness :
  from_dict record_with_bad_status = Raise ValueError
  ∧ ∃ e, load_books plain_loads test_storage world_with_bad_record = Raise e.
Proof.
  destruct (from_dict_failures plain_loads) as (Hstatus & _ & Hload). split.
  - apply (Hstatus _ (JStr (of_string "lost"))).
    + intros key Hkey. unfold required_keys in Hkey.
      repeat apply elem_of_cons in Hkey as [->|Hkey];
        [by vm_compute; eexists.. | by apply elem_of_nil in Hkey].
    + reflexivity.
    + intros [|]; discriminate.
  - destruct (Hload test_storage world_with_bad_record
                (Document (JList [JObject (to_dict (emma_book 2)); record_without_year]))
                [JObject (to_dict (emma_book 2)); record_without_year]
                record_without_year (KeyError key_year))
      as (pre & r' & post & e' & _ & _ & _ & He'); try reflexivity.
    + apply elem_of_cons. right. apply elem_of_cons. by left.
    + by exists e'.
Defined.

Lemma update_status_changes_only_status_witness :
  update_status plain_dumps two_books 2 (of_string "lost") no_files
  = Ok (two_books, print MsgInvalidStatus no_files).
Proof.
  destruct (update_status_changes_only_status plain_dumps two_books 2
              (of_string "lost") no_files)
    as (pre & book & post & _ & _ & _ & _ & Hlost).
  - apply elem_of_cons. right. apply elem_of_cons. by left.
  - apply Hlost. intros [[|] Hst]; discriminate.
Defined.

Lemma unknown_id_is_only_reported_witness :
  remove_book plain_dumps two_books 7 no_files
  = Ok (two_books, print (MsgNotFound 7) no_files).
Proof.
  destruct (unknown_id_is_only_reported (text := plain_text) plain_dumps) as [Hmissing _].
  apply (Hmissing two_books 7 [] no_files).
  intros Hin. repeat apply elem_of_cons in Hin as [Hin|Hin]; try discriminate.
  by apply elem_of_nil in Hin.
Defined.

Lemma add_book_id_above_present_witness :
  ∃ new_id w'',
    add_book plain_dumps (mkLibrary test_storage [dune_book AVAILABLE])
      (of_string "Emma") (of_string "Austen") 1815
      (world_holding [dune_book AVAILABLE] [MsgAdded (of_string "Dune") 1])
    = Ok (mkLibrary test_storage
            ([dune_book AVAILABLE]
             ++ [mkBook new_id (of_string "Emma") (of_string "Austen") 1815 AVAILABLE]),
          w'')
    ∧ 0 < new_id
    ∧ (∀ i, i ∈ ids [dune_book AVAILABLE] -> i < new_id)
    ∧ new_id ∉ ids [dune_book AVAILABLE].
Proof.
  destruct (add_book_id_above_present plain_dumps ascii_lower test_storage
              (adds [dune]) no_files
              (mkLibrary test_storage [dune_book AVAILABLE])
              (world_holding [dune_book AVAILABLE] [MsgAdded (of_string "Dune") 1])
              (of_string "Emma") (of_string "Austen") 1815)
    as (new_id & w'' & Hadd & Hpos & Habove & Hfresh & _); [reflexivity|].
  exists new_id, w''. split_and!; done.
Defined.

Lemma calls_preserve_distinct_ids_witness :
  ∃ self' w',
    call plain_dumps ascii_lower (CmdRemove 1) two_books no_files = Ok (self', w')
    ∧ NoDup (ids (books self')).
Proof.
  apply (calls_preserve_distinct_ids plain_dumps ascii_lower (CmdRemove 1)
           two_books no_files).
  apply NoDup_cons. split; [|apply NoDup_singleton].
  intros Hin%list_elem_of_singleton. discriminate.
Defined.

Lemma search_books_empty_keyword_witness :
  search_books ascii_lower two_books [] = [dune_book AVAILABLE; emma_book 2].
Proof.
  apply (search_books_empty_keyword ascii_lower two_books). reflexivity.
Defined.

(** ** Further properties of the records *)

(** X1.  [has_value] is the guard of [BookStatus(...)]: the call returns a member
    exactly when [has_value] holds, the member has the value asked for, and
    in every other case the call raises [ValueError]. *)
Theorem has_value_guards_BookStatus (v : str) :
  match BookStatus_call (JStr v) with
  | Ok st => has_value v = true ∧ value st = v
  | Raise e => has_value v = false ∧ e = ValueError
  | Untyped => False
  end.
Proof.
  unfold BookStatus_call.
  destruct (_value2member_map_ !! v) as [st|] eqn:Hv.
  - apply value2member_Some in Hv as ->. split; [|done].
    apply has_value_recognized. by exists st.
  - split; [|done]. unfold has_value. rewrite Hv.
    apply bool_decide_eq_false. by intros [st Hst].
Qed.

Lemma bind_Ok {A B} (r : result A) (f : A -> result B) (b : B) :
  bind r f = Ok b -> ∃ a, r = Ok a ∧ f a = Ok b.
Proof. destruct r as [a| |]; [|done..]. intros H. by exists a. Qed.

Lemma as_int_Ok (v : json) (z : Z) : as_int v = Ok z -> v = JInt z.
Proof. destruct v; try done. by intros [= ->]. Qed.

Lemma as_str_Ok (v : json) (s : str) : as_str v = Ok s -> v = JStr s.
Proof. destruct v; try done. by intros [= ->]. Qed.

Lemma BookStatus_call_Ok (v : json) (st : BookStatus) :
  BookStatus_call v = Ok st -> v = JStr (value st).
Proof.
  destruct v as [| | | |s| |]; try done. simpl.
  destruct (_value2member_map_ !! s) as [m|] eqn:Hs; [|done].
  intros [= <-]. by apply value2member_Some in Hs as ->.
Qed.

Lemma getitem_Ok (d : gmap str json) (key : str) (v : json) :
  subscript (JObject d) key = Ok v -> d !! key = Some v.
Proof. simpl. unfold getitem. destruct (d !! key); [|done]. by intros [= ->]. Qed.

Lemma to_dict_lookup (book : Book) (key : str) (v : json) :
  to_dict book !! key = Some v ↔
    (key = key_id ∧ v = JInt (id book))
    ∨ (key = key_title ∧ v = JStr (title book))
    ∨ (key = key_author ∧ v = JStr (author book))
    ∨ (key = key_year ∧ v = JInt (year book))
    ∨ (key = key_status ∧ v = JStr (value (status book))).
Proof.
  unfold to_dict. rewrite !lookup_insert_Some, lookup_empty. split.
  - intros [[<- <-]|[_ [[<- <-]|[_ [[<- <-]|[_ [[<- <-]|[_ [[<- <-]|[_ ?]]]]]]]]]];
      [tauto..|done].
  - intros [[-> ->]|[[-> ->]|[[-> ->]|[[-> ->]|[-> ->]]]]].
    + by left.
    + right. split; [done|]. by left.
    + right. split; [done|]. right. split; [done|]. by left.
    + right. split; [done|]. right. split; [done|]. right. split; [done|]. by left.
    + right. split; [done|]. right. split; [done|]. right. split; [done|].
      right. split; [done|]. by left.
Qed.

(** X2.  [from_dict] returns a book exactly for the dicts that hold the five
    entries [to_dict] writes for that book; whatever other keys the dict has
    is ignored. *)
Theorem from_dict_Ok_iff (data : json) (book : Book) :
  from_dict data = Ok book ↔ ∃ d, data = JObject d ∧ to_dict book ⊆ d.
Proof.
  split.
  - intros H. destruct data as [| | | | | |d];
      try (by unfold from_dict in H; simpl in H).
    exists d. split; [done|]. apply map_subseteq_spec. intros key v Hkv.
    unfold from_dict in H.
    apply bind_Ok in H as (vi & Hi & H). apply bind_Ok in H as (vt & Ht & H).
    apply bind_Ok in H as (va & Ha & H). apply bind_Ok in H as (vy & Hy & H).
    apply bind_Ok in H as (vs & Hs & H). apply bind_Ok in H as (st & Hst & H).
    apply bind_Ok in H as (i & Hvi & H). apply bind_Ok in H as (t & Hvt & H).
    apply bind_Ok in H as (a & Hva & H). apply bind_Ok in H as (y & Hvy & H).
    injection H as <-.
    apply as_int_Ok in Hvi as ->. apply as_int_Ok in Hvy as ->.
    apply as_str_Ok in Hvt as ->. apply as_str_Ok in Hva as ->.
    apply BookStatus_call_Ok in Hst as ->.
    apply getitem_Ok in Hi, Ht, Ha, Hy, Hs.
    apply to_dict_lookup in Hkv. simpl in Hkv.
    destruct Hkv as [[-> ->]|[[-> ->]|[[-> ->]|[[-> ->]|[-> ->]]]]]; done.
  - intros (d & -> & Hsub).
    assert (∀ key v, to_dict book !! key = Some v -> d !! key = Some v) as Hd
      by (intros key v Hkv; by eapply lookup_weaken).
    unfold from_dict, subscript, getitem.
    rewrite (Hd key_id (JInt (id book))) by (apply to_dict_lookup; tauto).
    rewrite (Hd key_title (JStr (title book))) by (apply to_dict_lookup; tauto).
    rewrite (Hd key_author (JStr (author book))) by (apply to_dict_lookup; tauto).
    rewrite (Hd key_year (JInt (year book))) by (apply to_dict_lookup; tauto).
    rewrite (Hd key_status (JStr (value (status book)))) by (apply to_dict_lookup; tauto).
    cbn [bind]. rewrite BookStatus_call_value. by destruct book.
Qed.

(** ** Further properties of the storage *)

Lemma comprehension_Ok_iff {A B} (f : A -> result B) (l : list A) (bs : list B) :
  comprehension f l = Ok bs ↔ Forall2 (fun x b => f x = Ok b) l bs.
Proof.
  revert bs. induction l as [|x l IH]; intros bs; simpl.
  - split; [intros [= <-]; constructor | by inversion 1].
  - split.
    + intros H. destruct (f x) as [b| |] eqn:Hx;
        destruct (comprehension f l) as [bs'| |] eqn:Hl; try done.
      injection H as <-. constructor; [done|]. by apply IH.
    + inversion 1 as [|? b ? bs' Hx Hl]; subst. rewrite Hx.
      apply IH in Hl. by rewrite Hl.
Qed.

Lemma comprehension_Raise_inv {A B} (f : A -> result B) (l : list A) (e : exn) :
  comprehension f l = Raise e -> ∃ x, x ∈ l ∧ f x = Raise e.
Proof.
  induction l as [|x l IH]; simpl; [done|].
  destruct (f x) as [b|e1|] eqn:Hx.
  - destruct (comprehension f l) as [bs|e2|]; try done.
    intros [= <-]. destruct IH as (y & Hy & Hfy); [done|].
    exists y. split; [|done]. apply elem_of_cons. by right.
  - intros [= <-]. exists x. split; [|done]. apply elem_of_cons. by left.
  - destruct (comprehension f l) as [bs|e2|]; try done.
    intros [= <-]. destruct IH as (y & Hy & Hfy); [done|].
    exists y. split; [|done]. apply elem_of_cons. by right.
Qed.

Section StorageProperties.

Context {text : Type}.
Context (json_loads : text -> option json) (json_dumps : json -> text).

Implicit Types (st : LibraryStorage) (w : world text).

(** What [load_books] does once the file has been read as the array [l]: the
    except clause catches nothing that [from_dict] raises. *)
Lemma load_books_array st w (t : text) (l : list json) :
  files w !! data_file st = Some t ->
  json_loads t = Some (JList l) ->
  load_books json_loads st w = comprehension from_dict l.
Proof.
  intros Hfile Hjson. unfold load_books, open_read, json_load.
  rewrite Hfile. simpl. rewrite Hjson. simpl.
  destruct (comprehension from_dict l) as [bs|e|] eqn:Hc; try done.
  destruct (comprehension_Raise_inv _ _ _ Hc) as (x & _ & Hx).
  by destruct (from_dict_raises _ _ Hx) as [->|[->|[k ->]]].
Qed.

(** X3.  Loading is all or nothing and keeps the order of the file: when the file
    holds a JSON array, [load_books] returns a collection exactly when every
    item deserializes, and then the books are the items, one for one and in
    file order. *)
Theorem load_books_item_by_item st w (t : text) (l : list json) (bs : list Book) :
  files w !! data_file st = Some t ->
  json_loads t = Some (JList l) ->
  load_books json_loads st w = Ok bs
  ↔ Forall2 (fun item book => from_dict item = Ok book) l bs.
Proof.
  intros Hfile Hjson. rewrite (load_books_array st w t l Hfile Hjson).
  apply comprehension_Ok_iff.
Qed.

(** X4.  A file that is valid JSON but not an array is not treated as empty: a
    top-level null, boolean, number, non-empty string or non-empty object
    makes [load_books] raise [TypeError], which the except clause does not
    catch.  Only the empty object and the empty string load as the empty
    collection. *)
Theorem load_books_not_an_array st w (t : text) (v : json) :
  files w !! data_file st = Some t ->
  json_loads t = Some v ->
  (∀ l, v ≠ JList l) ->
  (load_books json_loads st w = Ok [] ∧ (v = JObject ∅ ∨ v = JStr []))
  ∨ (load_books json_loads st w = Raise TypeError
     ∧ v ≠ JObject ∅ ∧ v ≠ JStr []).
Proof.
  intros Hfile Hjson Hlist. unfold load_books, open_read, json_load.
  rewrite Hfile. simpl. rewrite Hjson. simpl.
  destruct v as [|b|z|x|s|l|d]; simpl; try (by right).
  - destruct s as [|c s]; [left; split; [done | by right] | by right].
  - by destruct (Hlist l).
  - destruct (map_to_list d) as [|[k x] kvs] eqn:Hd.
    + apply map_to_list_empty_iff in Hd as ->. left. split; [done | by left].
    + right. split_and!; [done| |done].
      intros [= ->]. by rewrite map_to_list_empty in Hd.
Qed.

Lemma load_books_depends_on_files st w w' :
  files w' = files w ->
  load_books json_loads st w' = load_books json_loads st w.
Proof. intros H. unfold load_books, open_read. by rewrite H. Qed.

Lemma load_after_save st (bs : list Book) w :
  (∀ bs', json_loads (json_dumps (document bs')) = Some (document bs')) ->
  load_books json_loads st (save_books json_dumps st bs w) = Ok bs.
Proof.
  intros Hcodec.
  rewrite (load_books_array st _ (json_dumps (document bs))
             (map (fun book => JObject (to_dict book)) bs)).
  - apply comprehension_document.
  - simpl. by rewrite lookup_insert_eq.
  - apply Hcodec.
Qed.

End StorageProperties.

(** ** Further properties of the catalogue *)

Lemma StronglySorted_sublist {A} (R : A -> A -> Prop) (l k : list A) :
  StronglySorted R l -> k `sublist_of` l -> StronglySorted R k.
Proof.
  intros Hl Hk. induction Hk as [|x k l Hk IH|x k l Hk IH].
  - constructor.
  - apply StronglySorted_cons in Hl as [Hx Hl].
    apply StronglySorted_cons. split; [|by apply IH].
    rewrite Forall_forall in *. intros y Hy. apply Hx.
    by eapply elem_of_sublist.
  - apply StronglySorted_cons in Hl as [_ Hl]. by apply IH.
Qed.

Section CatalogueProperties.

Context {text : Type}.
Context (json_loads : text -> option json) (json_dumps : json -> text).
Context (lower : str -> str).

Implicit Types (self : Library) (w : world text) (book : Book).

Lemma display_books_rows (bs : list Book) w :
  foldl (fun w book => print (MsgRow book) w) w bs
  = mkWorld (files w) (stdout w ++ map MsgRow bs).
Proof.
  revert w. induction bs as [|book bs IH]; intros w; simpl.
  - rewrite app_nil_r. by destruct w.
  - rewrite IH. simpl. by rewrite <- app_assoc.
Qed.

Lemma display_books_files self w : files (display_books self w) = files w.
Proof.
  unfold display_books. destruct (books self) as [|book bs]; [done|].
  by rewrite display_books_rows.
Qed.

(** X6.  [display_books] prints the empty-library line for an empty collection
    and otherwise the header, the rule and one row for each book, in the
    order of the collection; it writes no file. *)
Theorem display_books_lists_every_book self w :
  files (display_books self w) = files w
  ∧ stdout (display_books self w)
    = stdout w ++ match books self with
                  | [] => [MsgEmpty]
                  | _ => MsgHeader :: MsgRule :: map MsgRow (books self)
                  end.
Proof.
  unfold display_books. destruct (books self) as [|book bs]; [done|].
  rewrite display_books_rows. simpl. split; [done|].
  by rewrite <- !app_assoc.
Qed.

(** Every call keeps the storage of the library, and either leaves the
    collection and the files as they are or rewrites the library's own file
    with the collection it leaves in memory. *)
Lemma call_writes_collection (c : command) self w :
  ∃ self' w',
    call json_dumps lower c self w = Ok (self', w')
    ∧ storage self' = storage self
    ∧ ((books self' = books self ∧ files w' = files w)
       ∨ files w'
         = <[data_file (storage self) := json_dumps (document (books self'))]> (files w)).
Proof.
  destruct c as [t a y|k|kw| |k new_status]; simpl.
  - rewrite add_book_eq. eexists _, _. split; [reflexivity|]. split; [done|].
    by right.
  - destruct (decide (k ∈ ids (books self))) as [Hk|Hk].
    + destruct (next_with_id_found _ _ Hk) as (pre & book & post & Hb & <- & Hpre & _).
      destruct self as [st bs]. simpl in *. subst bs.
      rewrite remove_book_found by done. eexists _, _.
      split; [reflexivity|]. split; [done|]. by right.
    + rewrite remove_book_missing by done. eexists _, _.
      split; [reflexivity|]. split; [done|]. by left.
  - eexists _, _. split; [reflexivity|]. split; [done|]. by left.
  - eexists _, _. split; [reflexivity|]. split; [done|]. left.
    split; [done|]. apply display_books_files.
  - destruct (decide (k ∈ ids (books self))) as [Hk|Hk].
    + destruct (has_value new_status) eqn:Hhas.
      * apply has_value_recognized in Hhas as [new ->].
        destruct (next_with_id_found _ _ Hk) as (pre & book & post & Hb & <- & Hpre & _).
        destruct self as [st bs]. simpl in *. subst bs.
        rewrite update_status_recognized by done. eexists _, _.
        split; [reflexivity|]. split; [done|]. by right.
      * rewrite update_status_unrecognized; [|done|].
        -- eexists _, _. split; [reflexivity|]. split; [done|]. by left.
        -- intros Hrec%has_value_recognized. congruence.
    + rewrite update_status_missing by done. eexists _, _.
      split; [reflexivity|]. split; [done|]. by left.
Qed.

Lemma run_in_sync (cs : list command) self w self' w' :
  (∀ bs, json_loads (json_dumps (document bs)) = Some (document bs)) ->
  load_books json_loads (storage self) w = Ok (books self) ->
  run json_dumps lower cs self w = Ok (self', w') ->
  storage self' = storage self
  ∧ load_books json_loads (storage self') w' = Ok (books self').
Proof.
  intros Hcodec. revert self w. induction cs as [|c cs IH]; intros self w Hsync Hrun.
  - injection Hrun as <- <-. by split.
  - cbn [run] in Hrun.
    destruct (call_writes_collection c self w) as (self1 & w1 & Hcall & Hst & Hw).
    rewrite Hcall in Hrun. cbn [bind fst snd] in Hrun.
    destruct (IH self1 w1) as [Hst' Hsync']; [|done|].
    + rewrite Hst. destruct Hw as [[Hbooks Hfiles]|Hfiles].
      * rewrite Hbooks, <- Hsync. by apply load_books_depends_on_files.
      * rewrite <- (load_after_save json_loads json_dumps (storage self) (books self1) w Hcodec).
        by apply load_books_depends_on_files.
    + split; [congruence | done].
Qed.

(** X7.  The file follows the memory: if the file of the library holds its
    collection, as it does after [Library(storage)], then after any sequence
    of operations a fresh [Library(storage)] on the same file is the library
    the operations left.  It rests on [json.load] reading back what
    [json.dump] wrote. *)
Theorem restart_restores_library (cs : list command) self w self' w' :
  (∀ bs, json_loads (json_dumps (document bs)) = Some (document bs)) ->
  load_books json_loads (storage self) w = Ok (books self) ->
  run json_dumps lower cs self w = Ok (self', w') ->
  Library_init json_loads (storage self') w' = Ok self'.
Proof.
  intros Hcodec Hsync Hrun.
  destruct (run_in_sync cs self w self' w' Hcodec Hsync Hrun) as [_ Hload].
  unfold Library_init. rewrite Hload. simpl. by destruct self'.
Qed.



(** X10.  Of two status updates of one book only the second shows: updating to
    one recognized status and then to another leaves the library, and the
    file, that the second update alone would leave. *)
Theorem update_status_last_wins self (book_id : Z) (first second : BookStatus) w :
  book_id ∈ ids (books self) ->
  ∃ self1 w1 self2 w2 w3,
    update_status json_dumps self book_id (value first) w = Ok (self1, w1)
    ∧ update_status json_dumps self1 book_id (value second) w1 = Ok (self2, w2)
    ∧ update_status json_dumps self book_id (value second) w = Ok (self2, w3)
    ∧ files w2 = files w3
    ∧ ids (books self2) = ids (books self).
Proof.
  intros Hid.
  destruct (next_with_id_found _ _ Hid) as (pre & book & post & Hb & <- & Hpre & _).
  destruct self as [st bs]. simpl in *. subst bs.
  rewrite !update_status_recognized by done.
  pose proof (update_status_recognized json_dumps st pre post (set_status first book)
                second) as Hsecond.
  cbn [id set_status] in Hsecond. cbn [set_status].
  eexists _, _, _, _, _. split; [reflexivity|]. split; [by apply Hsecond|].
  split; [reflexivity|]. split.
  - simpl. by rewrite insert_insert_eq.
  - simpl. unfold ids. by rewrite !map_app.
Qed.

Lemma call_keeps_ids_increasing (c : command) self w self' w' :
  StronglySorted Z.lt (ids (books self)) ->
  call json_dumps lower c self w = Ok (self', w') ->
  StronglySorted Z.lt (ids (books self')).
Proof.
  intros Hsorted Hcall.
  destruct (call_ids json_dumps lower c self w) as (s & w0 & Hcall' & _ & Hids).
  rewrite Hcall in Hcall'. injection Hcall' as <- <-.
  destruct Hids as [Hids|Hids].
  - rewrite Hids. apply StronglySorted_app. split_and!; [|done|].
    + intros i j Hi ->%list_elem_of_singleton. by apply next_id_above.
    + repeat constructor.
  - by eapply StronglySorted_sublist.
Qed.

(** X11.  A collection built from the empty one is always in increasing order of
    id, whatever is added, removed or updated in between: the list stays
    sorted, the last book has the greatest id, and no two books share one. *)
Theorem ids_stay_increasing (st : LibraryStorage) (cs : list command) w self' w' :
  run json_dumps lower cs (mkLibrary st []) w = Ok (self', w') ->
  StronglySorted Z.lt (ids (books self')).
Proof.
  assert (∀ self w, StronglySorted Z.lt (ids (books self)) ->
            run json_dumps lower cs self w = Ok (self', w') ->
            StronglySorted Z.lt (ids (books self'))) as Hgen.
  { induction cs as [|c cs IH]; intros self w0 Hsorted Hrun.
    - by injection Hrun as <- <-.
    - cbn [run] in Hrun.
      destruct (call json_dumps lower c self w0) as [[self1 w1]| |] eqn:Hcall; try done.
      cbn [bind fst snd] in Hrun. eapply IH; [|done].
      by eapply call_keeps_ids_increasing. }
  apply Hgen. constructor.
Qed.

End CatalogueProperties.

(** ** Further properties of the search *)

Lemma of_string_inj (s1 s2 : string) : of_string s1 = of_string s2 -> s1 = s2.
Proof.
  unfold of_string. intros H.
  rewrite <- (string_of_list_ascii_of_string s1), <- (string_of_list_ascii_of_string s2).
  f_equal. revert H. generalize (list_ascii_of_string s1) (list_ascii_of_string s2).
  induction l as [|a l IH]; intros [|b k]; simpl; try done.
  intros [= Hab Hlk]. f_equal; [|by apply IH].
  by rewrite <- (ascii_N_embedding a), <- (ascii_N_embedding b), Hab.
Qed.

Lemma to_int_not_nil (z : Z) :
  Z.to_int z ≠ Decimal.Pos Decimal.Nil ∧ Z.to_int z ≠ Decimal.Neg Decimal.Nil.
Proof.
  destruct z as [|p|p]; simpl; split; try done.
  - intros [= H]. by apply (Unsigned.to_uint_nonnil p).
  - intros [= H]. by apply (Unsigned.to_uint_nonnil p).
Qed.

(** [str] is one to one on the integers: different years never print
    alike. *)
Lemma str_of_int_inj (y1 y2 : Z) : str_of_int y1 = str_of_int y2 -> y1 = y2.
Proof.
  unfold str_of_int. intros H%of_string_inj. apply to_int_inj.
  destruct (to_int_not_nil y1) as [Hp1 Hn1], (to_int_not_nil y2) as [Hp2 Hn2].
  pose proof (NilZero.isi _ Hp1 Hn1) as H1. pose proof (NilZero.isi _ Hp2 Hn2) as H2.
  rewrite H in H1. rewrite H1 in H2. by injection H2.
Qed.

Section SearchProperties.

Context (lower : str -> str).

Implicit Types (self : Library) (book : Book).

Lemma search_books_elem_of self (keyword : str) book :
  book ∈ search_books lower self keyword
  ↔ book ∈ books self ∧ matches lower keyword book.
Proof.
  unfold search_books.
  rewrite !list_elem_of_In, List.filter_In, search_test_matches. done.
Qed.

Lemma substring_refl (s : str) : substring s s.
Proof. exists [], []. by rewrite app_nil_r. Qed.

(** X12.  Every book of the collection is found by its own title, by its own
    author and by its own year printed in decimal, written in any case that
    lowers to the same string. *)
Theorem search_books_finds_own_fields self book (keyword : str) :
  book ∈ books self ->
  lower keyword = lower (title book)
  ∨ lower keyword = lower (author book)
  ∨ keyword = str_of_int (year book) ->
  book ∈ search_books lower self keyword.
Proof.
  intros Hbook Hkey. apply search_books_elem_of. split; [done|].
  unfold matches, lowered_occurs.
  destruct Hkey as [-> | [-> | ->]]; auto using substring_refl.
Qed.

(** X13.  The search does not see case: two keywords that lower to the same string
    return the same books, as long as neither is the printed year of a book
    (years are compared as written). *)
Theorem search_books_ignores_case self (keyword1 keyword2 : str) :
  lower keyword1 = lower keyword2 ->
  (∀ book, book ∈ books self ->
     str_of_int (year book) ≠ keyword1 ∧ str_of_int (year book) ≠ keyword2) ->
  search_books lower self keyword1 = search_books lower self keyword2.
Proof.
  intros Hlower Hyears. unfold search_books. apply List.filter_ext_in.
  intros book Hbook%list_elem_of_In. rewrite Hlower.
  destruct (Hyears book Hbook) as [H1 H2].
  rewrite !(bool_decide_eq_false_2 (_ = str_of_int (year book))) by done.
  done.
Qed.

(** X14.  A year is matched exactly: a book whose title and author do not contain
    the digits of [y] is returned by the search for [str(y)] if and only if
    its year is [y]. *)
Theorem search_books_by_year_is_exact self book (y : Z) :
  book ∈ books self ->
  ¬ lowered_occurs lower (str_of_int y) (title book) ->
  ¬ lowered_occurs lower (str_of_int y) (author book) ->
  book ∈ search_books lower self (str_of_int y) ↔ year book = y.
Proof.
  intros Hbook Htitle Hauthor. rewrite search_books_elem_of. unfold matches. split.
  - intros [_ [?|[?|Hy]]]; [done..|]. by apply str_of_int_inj.
  - intros <-. split; [done|]. by right; right.
Qed.

(** X15.  A search changes nothing and invents nothing: its result is the
    collection with some books left out, in the same order. *)
Theorem search_books_is_sublist self (keyword : str) :
  search_books lower self keyword `sublist_of` books self.
Proof.
  unfold search_books. induction (books self) as [|book bs IH]; simpl; [done|].
  destruct (_ || _ || _); [by apply sublist_skip | by apply sublist_cons].
Qed.

End SearchProperties.

(** ** The menu loop *)

Section MenuProperties.

Context {text : Type}.
Context (json_loads : text -> option json) (json_dumps : json -> text).
Context (lower strip : str -> str) (isdigit : str -> bool) (int_of_str : str -> option Z).

Implicit Types (library self : Library) (t : terminal text) (w : world text).

Lemma call_on_console (c : command) self (f : gmap str text) (out : list message) :
  call json_dumps lower c self (mkWorld f out)
  = match call json_dumps lower c self (mkWorld f []) with
    | Ok (self', w') => Ok (self', mkWorld (files w') (out ++ stdout w'))
    | r => r
    end.
Proof.
  destruct c as [title author year|k|kw| |k new_status]; simpl.
  - by rewrite !add_book_eq.
  - unfold remove_book. by destruct (next_with_id (books self) k) as [[i book]|].
  - by rewrite app_nil_r.
  - unfold display_books. destruct (books self) as [|book bs]; [done|].
    rewrite !display_books_rows. simpl. by rewrite <- !app_assoc.
  - unfold update_status. destruct (next_with_id (books self) k) as [[i book]|]; [|done].
    destruct (has_value new_status); [|done].
    by destruct (BookStatus_call (JStr new_status)).
Qed.

Lemma run_on_console (cs : list command) self (f : gmap str text) (out : list message) :
  run json_dumps lower cs self (mkWorld f out)
  = match run json_dumps lower cs self (mkWorld f []) with
    | Ok (self', w') => Ok (self', mkWorld (files w') (out ++ stdout w'))
    | r => r
    end.
Proof.
  revert self f out. induction cs as [|c cs IH]; intros self f out.
  - simpl. by rewrite app_nil_r.
  - cbn [run]. rewrite (call_on_console c self f out).
    destruct (call json_dumps lower c self (mkWorld f [])) as [[self1 [f1 out1]]| |];
      [|done..].
    cbn [bind fst snd files stdout]. rewrite (IH self1 f1 (out ++ out1)), (IH self1 f1 out1).
    destruct (run json_dumps lower cs self1 (mkWorld f1 [])) as [[self2 w2]| |]; [|done..].
    simpl. by rewrite app_assoc.
Qed.

(** X16.  What a sequence of calls does to the library and the files does not
    depend on what the console shows, and what it prints comes after what
    was there, which stays. *)
Theorem console_is_append_only (cs : list command) self (f : gmap str text)
    (out : list message) :
  run json_dumps lower cs self (mkWorld f out)
  = match run json_dumps lower cs self (mkWorld f []) with
    | Ok (self', w') => Ok (self', mkWorld (files w') (out ++ stdout w'))
    | r => r
    end.
Proof. apply run_on_console. Qed.


(** *** One turn of the loop *)

Ltac choose :=
  repeat (rewrite decide_False
            by (let H := fresh in intros H; vm_compute in H; discriminate));
  try rewrite decide_True by reflexivity.







Lemma method_call (c : command) library t :
  ∃ library1 w1,
    call json_dumps lower c library (mkWorld (disk t) []) = Ok (library1, w1)
    ∧ method (call json_dumps lower c library) t
      = (inr library1,
         mkTerminal (files w1) (screen t ++ map Printed (stdout w1)) (keyboard t)).
Proof.
  destruct (call_ids json_dumps lower c library (mkWorld (disk t) []))
    as (library1 & w1 & Hcall & _).
  exists library1, w1. split; [done|]. unfold method. by rewrite Hcall.
Qed.

Ltac run_method library c :=
  match goal with
  | |- context [method ?m ?t] =>
      change m with (call json_dumps lower c library);
      let library1 := fresh "library1" in
      let w1 := fresh "w1" in
      destruct (method_call c library t) as (library1 & w1 & _ & ->)
  end.

(** With the catalogue of the section [Program], where writing succeeds, a
    turn ends the program only at the end of the input or when [int] rejects
    a string; and a turn that does not end it has read a line. *)
Lemma body_outcome library t (r : ending + option Library) t' :
  body json_dumps lower strip isdigit int_of_str library t = (r, t') ->
  match r with
  | inl EndOfInput | inl (Crash ValueError) => True
  | inl _ => False
  | inr _ => (length (keyboard t') < length (keyboard t))%nat
  end.
Proof.
  destruct t as [d scr kb]. unfold body, then_, show, input.
  cbn [keyboard disk screen].
  destruct kb as [|typed kb]; [by intros [= <- <-]|].
  repeat case_decide.
  - destruct kb as [|title [|author [|year kb]]]; try (by intros [= <- <-]).
    cbn [keyboard disk screen].
    destruct (isdigit year); [|intros [= <- <-]; simpl; lia].
    unfold int. destruct (int_of_str year) as [y|]; [|by intros [= <- <-]].
    run_method library (CmdAdd title author y). intros [= <- <-]. simpl. lia.
  - destruct kb as [|book_id kb]; try (by intros [= <- <-]).
    cbn [keyboard disk screen].
    destruct (isdigit book_id); [|intros [= <- <-]; simpl; lia].
    unfold int. destruct (int_of_str book_id) as [k|]; [|by intros [= <- <-]].
    run_method library (CmdRemove k). intros [= <- <-]. simpl. lia.
  - destruct kb as [|keyword kb]; try (by intros [= <- <-]).
    cbn [keyboard disk screen].
    destruct (search_books lower library keyword); intros [= <- <-]; simpl; lia.
  - run_method library CmdDisplay. intros [= <- <-]. simpl. lia.
  - destruct kb as [|book_id [|new_status kb]]; try (by intros [= <- <-]).
    cbn [keyboard disk screen].
    destruct (isdigit book_id); [|intros [= <- <-]; simpl; lia].
    unfold int. destruct (int_of_str book_id) as [k|]; [|by intros [= <- <-]].
    run_method library (CmdUpdateStatus k new_status). intros [= <- <-]. simpl. lia.
  - intros [= <- <-]. simpl. lia.
  - intros [= <- <-]. simpl. lia.
Qed.

(** *** The whole loop *)

Lemma main_loop_outcome (fuel : nat) library t :
  (length (keyboard t) < fuel)%nat ->
  match (main_loop json_dumps lower strip isdigit int_of_str fuel library t).1 with
  | Quit _ | EndOfInput | Crash ValueError => True
  | _ => False
  end.
Proof.
  revert library t. induction fuel as [|fuel IH]; intros library t Hfuel; [lia|].
  cbn [main_loop].
  destruct (body json_dumps lower strip isdigit int_of_str library t)
    as [[e|[library'|]] t'] eqn:Hbody; apply body_outcome in Hbody.
  - by destruct e as [| |[]| |].
  - apply IH. lia.
  - done.
Qed.



(** X17.  [main] comes to an end on every finite input: a turn of the loop
    that does not end the program has read a line, so the turns allowed, one
    more than the lines typed, are never used up. *)
Theorem main_comes_to_an_end t :
  (main json_loads json_dumps lower strip isdigit int_of_str t).1 ≠ OutOfFuel
  ∧ ∀ library t0 (r : option Library) t',
      body json_dumps lower strip isdigit int_of_str library t0 = (inr r, t') ->
      (length (keyboard t') < length (keyboard t0))%nat.
Proof.
  split.
  - unfold main.
    destruct (Library_init json_loads _ _) as [library| |]; [|done..].
    pose proof (main_loop_outcome (S (length (keyboard t))) library
                  (mkTerminal (disk t) (screen t ++ [Welcome]) (keyboard t))) as H.
    intros Hout. rewrite Hout in H. apply H. simpl. lia.
  - intros library t0 r t' Hbody. by apply body_outcome in Hbody.
Qed.


(** X19.  A year or an id that [isdigit] rejects never reaches the catalogue: the
    turn shows the complaint and leaves the library and the files as they
    were. *)
Theorem body_rejects_non_numbers library (d : gmap str text) (scr : list line)
    (typed first second number : str) (rest : list str) :
  isdigit number = false ->
  (strip typed = of_string "1" ->
     body json_dumps lower strip isdigit int_of_str library
       (mkTerminal d scr (typed :: first :: second :: number :: rest))
     = (inr (Some library),
        mkTerminal d
          (scr ++ menu_lines
           ++ [Asked AskChoice; Asked AskTitle; Asked AskAuthor; Asked AskYear;
               YearNotNumber])
          rest))
  ∧ (strip typed = of_string "2" ->
     body json_dumps lower strip isdigit int_of_str library
       (mkTerminal d scr (typed :: number :: rest))
     = (inr (Some library),
        mkTerminal d
          (scr ++ menu_lines ++ [Asked AskChoice; Asked AskRemoveId; IdNotNumber])
          rest))
  ∧ (strip typed = of_string "5" ->
     body json_dumps lower strip isdigit int_of_str library
       (mkTerminal d scr (typed :: number :: second :: rest))
     = (inr (Some library),
        mkTerminal d
          (scr ++ menu_lines
           ++ [Asked AskChoice; Asked AskUpdateId; Asked AskNewStatus; IdNotNumber])
          rest)).
Proof.
  intros Hdigit. split_and!; intros Hchoice;
    unfold body, then_, show, input; cbn [keyboard disk screen];
    rewrite Hchoice; choose; cbn [keyboard disk screen]; rewrite Hdigit;
    unfold ret; simpl; by rewrite <- !app_assoc.
Qed.

End MenuProperties.

(** ** The further theorems at work *)

Example plain_main_session :
  plain_main (fresh_terminal (flat_map typed_for session ++ [of_string " 6 "; of_string "1"]))
  = (Quit (mkLibrary main_storage []),
     mkTerminal (<[data_file main_storage := plain_dumps (document [])]> ∅)
       ([Welcome] ++ menu_lines
        ++ [Asked AskChoice; Asked AskTitle; Asked AskAuthor; Asked AskYear;
            Printed (MsgAdded (of_string "Dune") 1)]
        ++ menu_lines
        ++ [Asked AskChoice; Asked AskUpdateId; Asked AskNewStatus;
            Printed (MsgStatusUpdated 1 (value ISSUED))]
        ++ menu_lines
        ++ [Asked AskChoice; Asked AskRemoveId; Printed (MsgRemoved 1)]
        ++ menu_lines ++ [Asked AskChoice; Goodbye])
       [of_string "1"]).
Proof. by vm_compute. Qed.

Example plain_main_end_of_input :
  (plain_main (fresh_terminal [of_string "4"])).1 = EndOfInput.
Proof. by vm_compute. Qed.

Lemma load_books_item_by_item_witness :
  load_books plain_loads test_storage (world_holding [dune_book ISSUED] [])
  = Ok [dune_book ISSUED]
  ↔ Forall2 (fun item book => from_dict item = Ok book)
      [JObject (to_dict (dune_book ISSUED))] [dune_book ISSUED].
Proof.
  apply (load_books_item_by_item plain_loads test_storage
           (world_holding [dune_book ISSUED] [])
           (plain_dumps (document [dune_book ISSUED]))); reflexivity.
Defined.

Lemma load_books_not_an_array_witness :
  (load_books plain_loads test_storage world_with_number = Ok []
   ∧ (JInt 5 = JObject ∅ ∨ JInt 5 = JStr []))
  ∨ (load_books plain_loads test_storage world_with_number = Raise TypeError
     ∧ JInt 5 ≠ JObject ∅ ∧ JInt 5 ≠ JStr []).
Proof.
  apply (load_books_not_an_array plain_loads test_storage world_with_number
           (Document (JInt 5)) (JInt 5)); [reflexivity | reflexivity | discriminate].
Defined.

Lemma restart_restores_library_witness :
  Library_init plain_loads test_storage
    (world_holding [dune_book ISSUED]
       [MsgAdded (of_string "Dune") 1; MsgStatusUpdated 1 (value ISSUED)])
  = Ok (mkLibrary test_storage [dune_book ISSUED]).
Proof.
  apply (restart_restores_library plain_loads plain_dumps ascii_lower
           (adds [dune] ++ [CmdUpdateStatus 1 (value ISSUED)])
           (mkLibrary test_storage []) no_files
           (mkLibrary test_storage [dune_book ISSUED])
           (world_holding [dune_book ISSUED]
              [MsgAdded (of_string "Dune") 1; MsgStatusUpdated 1 (value ISSUED)]));
    [intros bs; reflexivity | reflexivity | reflexivity].
Defined.


Lemma update_status_last_wins_witness :
  ∃ self1 w1 self2 w2 w3,
    update_status plain_dumps two_books 2 (value ISSUED) no_files = Ok (self1, w1)
    ∧ update_status plain_dumps self1 2 (value AVAILABLE) w1 = Ok (self2, w2)
    ∧ update_status plain_dumps two_books 2 (value AVAILABLE) no_files = Ok (self2, w3)
    ∧ files w2 = files w3
    ∧ ids (books self2) = ids (books two_books).
Proof.
  apply (update_status_last_wins plain_dumps two_books 2 ISSUED AVAILABLE no_files).
  apply elem_of_cons. right. apply elem_of_cons. left. reflexivity.
Defined.

Lemma ids_stay_increasing_witness :
  StronglySorted Z.lt (ids [dune_book AVAILABLE; emma_book 2]).
Proof.
  apply (ids_stay_increasing plain_dumps ascii_lower test_storage (adds [dune; emma])
           no_files two_books
           (world_holding [dune_book AVAILABLE; emma_book 2]
              [MsgAdded (of_string "Dune") 1; MsgAdded (of_string "Emma") 2])).
  reflexivity.
Defined.

Lemma search_books_finds_own_fields_witness :
  emma_book 2 ∈ search_books ascii_lower two_books (of_string "EMMA").
Proof.
  apply (search_books_finds_own_fields ascii_lower two_books (emma_book 2)
           (of_string "EMMA")).
  - apply elem_of_cons. right. apply elem_of_cons. left. reflexivity.
  - left. reflexivity.
Defined.

Lemma search_books_ignores_case_witness :
  search_books ascii_lower two_books (of_string "DUNE")
  = search_books ascii_lower two_books (of_string "dune").
Proof.
  apply (search_books_ignores_case ascii_lower two_books (of_string "DUNE")
           (of_string "dune")); [reflexivity|].
  intros book Hbook.
  repeat apply elem_of_cons in Hbook as [->|Hbook];
    [split; vm_compute; discriminate.. | by apply elem_of_nil in Hbook].
Defined.

Lemma search_books_by_year_is_exact_witness :
  dune_book AVAILABLE ∈ search_books ascii_lower two_books (str_of_int 1965)
  ↔ year (dune_book AVAILABLE) = 1965.
Proof.
  apply (search_books_by_year_is_exact ascii_lower two_books (dune_book AVAILABLE) 1965).
  - apply elem_of_cons. left. reflexivity.
  - intros H. apply (proj2 (contains_spec _ _)) in H. vm_compute in H. discriminate.
  - intros H. apply (proj2 (contains_spec _ _)) in H. vm_compute in H. discriminate.
Defined.


Lemma body_rejects_non_numbers_witness :
  body plain_dumps ascii_lower ascii_strip ascii_isdigit ascii_int
    (mkLibrary main_storage [])
    (mkTerminal ∅ []
       [of_string "1"; of_string "Dune"; of_string "Herbert"; of_string "MCMLXV"])
  = (inr (Some (mkLibrary main_storage [])),
     mkTerminal ∅
       ([] ++ menu_lines
        ++ [Asked AskChoice; Asked AskTitle; Asked AskAuthor; Asked AskYear;
            YearNotNumber])
       []).
Proof.
  destruct (body_rejects_non_numbers plain_dumps ascii_lower ascii_strip ascii_isdigit
              ascii_int (mkLibrary main_storage []) ∅ [] (of_string "1")
              (of_string "Dune") (of_string "Herbert") (of_string "MCMLXV") [])
    as (Hyear & _ & _); [reflexivity|].
  apply Hyear. reflexivity.
Defined.

(** ** Case, encoding and decoding at work *)

Example lower_with_final_sigma_examples :
  lower_with_final_sigma [927; 931]%N = [959; 962]%N
  ∧ lower_with_final_sigma [927; 931; 913]%N = [959; 963; 945]%N
  ∧ lower_with_final_sigma [931]%N = [963]%N
  ∧ lower_with_final_sigma [913; 931; 32; 913; 931]%N = [945; 962; 32; 945; 962]%N
  ∧ lower_with_final_sigma [49; 931]%N = [49; 963]%N
  ∧ lower_with_final_sigma [913; 931; 49]%N = [945; 962; 49]%N
  ∧ lower_with_final_sigma (of_string "Dune 1965") = of_string "dune 1965".
Proof. by vm_compute. Qed.

(** C2, as stated, fails: the title "ΟΣΑ" contains the keyword "ΟΣ" as it
    stands, so also up to case, and the search for "ΟΣ" does not return the
    book: the keyword lowers to "ος", with the final sigma, and the title to
    "οσα". *)
Lemma final_sigma_keyword_is_missed :
  contains_up_to_case lower_with_final_sigma sigma_keyword (title osa_book)
  ∧ search_books lower_with_final_sigma (mkLibrary test_storage [osa_book])
      sigma_keyword
    = [].
Proof.
  split; [|by vm_compute].
  exists [], sigma_keyword, [913%N]. split; reflexivity.
Qed.

Lemma search_books_selects_matches_witness :
  selects (matches_up_to_case ascii_lower (of_string "dUNE")) (books two_books)
    (search_books ascii_lower two_books (of_string "dUNE")).
Proof.
  destruct (search_books_selects_matches ascii_lower two_books (of_string "dUNE"))
    as [_ Hcase].
  apply (Hcase (fun _ => True)
           (fun c => if bool_decide (65 <= c <= 90)%N then (c + 32)%N else c)).
  - intros s _. reflexivity.
  - by apply Forall_forall.
  - intros book _. split; by apply Forall_forall.
Defined.




